(** * Fuel consumption tracker: the store of [app.js] and its specification

    A shallow embedding of the class [FuelConsumptionTracker] of [src/app.js].

    - JavaScript numbers are IEEE 754 binary64 values: the primitive [float]
      of the kernel, whose [+], [-], [/] and comparisons are the operators of
      the source.
    - The two arrays of the instance are lists; an object found with [find] or
      by index and then assigned to is a write at that index of the list.
    - A method that may [throw] returns the store together with either the
      error or the returned value.
    - [Date.now], [Math.random] and [new Date().toISOString()] are inputs of
      the operations that read them.
    - [localStorage] is absent (the branch [typeof localStorage ===
      'undefined'] of [saveToStorage] and [loadFromStorage]): the store lives
      in memory only.
    - Arguments have the types that the JSDoc of the methods declares:
      numbers are numbers and strings are strings.
    - A JSON text is represented by the value it denotes; the vehicles and
      records of the store are objects with exactly the fields of the data
      model, each of its type. *)

From Stdlib Require Import ZArith List String Bool Lia.
From Stdlib Require Import Floats.
Import ListNotations.

Local Open Scope string_scope.
Local Open Scope list_scope.

(** ** Numbers *)

Module Number.

Local Open Scope float_scope.

(** [parseFloat(x)] for a number [x]: [x] is first converted to a string and
    the string is read back.  Every number survives that, except that the
    string of [-0] is ["0"]. *)
Definition parseFloat (x : float) : float :=
  if is_zero x then zero else x.

(** The integer [n] of [Number.prototype.toFixed] for two fraction digits and
    a positive finite [x = m * 2^e]: [n / 100 - x] is as close to zero as
    possible, and of two such [n] the larger one is taken. *)
Definition toFixed_digits (m : positive) (e : Z) : Z :=
  if (0 <=? e)%Z then (100 * Z.pos m * 2 ^ e)%Z
  else ((200 * Z.pos m + 2 ^ (- e)) / 2 ^ (1 - e))%Z.

(** [parseFloat(x.toFixed(2))].
    - [toFixed] of [NaN] and of the infinities is their name, which
      [parseFloat] reads back as the same value.
    - From [1e21] on, [toFixed] is [String(x)], which reads back as [x].
    - Otherwise the string is the sign of [x] (none for a zero) and the
      decimal digits of [n / 100]; [parseFloat] yields the number nearest
      to it, which is the correctly rounded quotient of [n] by [100]. *)
Definition round2 (x : float) : float :=
  match Prim2SF x with
  | S754_nan => nan
  | S754_infinity s => if s then neg_infinity else infinity
  | S754_zero _ => zero
  | S754_finite s m e =>
      if (1e21 <=? abs x) then x
      else match toFixed_digits m e with
           | Zpos n =>
               SF2Prim (SFdiv prec emax (S754_finite s n 0) (S754_finite false 100 0))
           | _ => if s then neg_zero else zero
           end
  end.

(** The exact value of a finite number, counted in units of [2^-1074] (every
    finite binary64 number is an integer multiple of it); [None] for [NaN]
    and the infinities. *)
Definition exact (x : float) : option Z :=
  match Prim2SF x with
  | S754_zero _ => Some 0%Z
  | S754_finite s m e =>
      let v := (Z.pos m * 2 ^ (e + 1074))%Z in
      Some (if s then (- v)%Z else v)
  | S754_infinity _ | S754_nan => None
  end.

(** [a + b] was computed without rounding. *)
Definition exact_add (a b : float) : bool :=
  match exact a, exact b, exact (a + b) with
  | Some x, Some y, Some z => (z =? x + y)%Z
  | _, _, _ => false
  end.

(** [a - b] was computed without rounding. *)
Definition exact_sub (a b : float) : bool :=
  match exact a, exact b, exact (a - b) with
  | Some x, Some y, Some z => (z =? x - y)%Z
  | _, _, _ => false
  end.

End Number.

Import Number.

(** ** Arrays *)

Section Arrays.
Context {A : Type}.

(** [l.findIndex(p)]; [None] stands for [-1]. *)
Fixpoint findIndex (p : A -> bool) (l : list A) : option nat :=
  match l with
  | [] => None
  | x :: l' =>
      if p x then Some 0
      else match findIndex p l' with
           | Some i => Some (S i)
           | None => None
           end
  end.

(** The array after an assignment to the element at index [i]. *)
Fixpoint assign (i : nat) (y : A) (l : list A) : list A :=
  match l, i with
  | [], _ => []
  | _ :: l', 0 => y :: l'
  | x :: l', S j => x :: assign j y l'
  end.

(** [l.splice(i, 1)]: the array without the element at index [i]. *)
Fixpoint splice1 (i : nat) (l : list A) : list A :=
  match l, i with
  | [], _ => []
  | _ :: l', 0 => l'
  | x :: l', S j => x :: splice1 j l'
  end.
End Arrays.

(** ** Data model *)

Module Vehicle.
Record t := mk {
  id : string;
  name : string;
  fuelType : string;
  createdAt : string;
  totalDistance : float;
  totalFuelConsumed : float
}.
End Vehicle.

Module FuelRecord.
Record t := mk {
  id : string;
  vehicleId : string;
  fuelAmount : float;
  distance : float;
  consumption : float;
  date : string;
  notes : string;
  createdAt : string
}.
End FuelRecord.

Record Tracker := mkTracker {
  fuelRecords : list FuelRecord.t;
  vehicles : list Vehicle.t
}.

(** [new FuelConsumptionTracker()] without [localStorage]. *)
Definition constructor : Tracker :=
  {| fuelRecords := []; vehicles := [] |}.

(** The errors the methods throw: [new Error(message)].  The specification
    calls the first kind [NotFoundError] and the second [ImportError]. *)
Inductive Error :=
| NotFoundError (message : string)
| ImportError (message : string).

(** The store after a call, and what the call threw or returned. *)
Definition outcome (A : Type) : Type := (Tracker * (Error + A))%type.

Definition throw {A} (st : Tracker) (e : Error) : outcome A := (st, inl e).
Definition ret {A} (st : Tracker) (a : A) : outcome A := (st, inr a).

(** ** Operations *)

(** [v => v.id === vehicleId] *)
Definition hasId (vehicleId : string) (v : Vehicle.t) : bool :=
  String.eqb (Vehicle.id v) vehicleId.

(** [r => r.id === recordId] *)
Definition recordHasId (recordId : string) (r : FuelRecord.t) : bool :=
  String.eqb (FuelRecord.id r) recordId.

(** [record => record.vehicleId === vehicleId] *)
Definition ofVehicle (vehicleId : string) (r : FuelRecord.t) : bool :=
  String.eqb (FuelRecord.vehicleId r) vehicleId.

(** [addVehicle(vehicleId, name, fuelType = 'petrol')]; [now] is
    [new Date().toISOString()]. *)
Definition addVehicle (st : Tracker) (now : string)
    (vehicleId name : string) (fuelType : option string) : Tracker * Vehicle.t :=
  let vehicle :=
    {| Vehicle.id := vehicleId;
       Vehicle.name := name;
       Vehicle.fuelType := match fuelType with Some t => t | None => "petrol" end;
       Vehicle.createdAt := now;
       Vehicle.totalDistance := 0;
       Vehicle.totalFuelConsumed := 0 |} in
  ({| fuelRecords := fuelRecords st; vehicles := vehicles st ++ [vehicle] |}, vehicle).

(** [getVehicle(vehicleId)]; [None] stands for [undefined]. *)
Definition getVehicle (st : Tracker) (vehicleId : string) : option Vehicle.t :=
  find (hasId vehicleId) (vehicles st).

(** [vehicle.totalDistance += d; vehicle.totalFuelConsumed += f] *)
Definition addTotals (v : Vehicle.t) (d f : float) : Vehicle.t :=
  {| Vehicle.id := Vehicle.id v;
     Vehicle.name := Vehicle.name v;
     Vehicle.fuelType := Vehicle.fuelType v;
     Vehicle.createdAt := Vehicle.createdAt v;
     Vehicle.totalDistance := (Vehicle.totalDistance v + d)%float;
     Vehicle.totalFuelConsumed := (Vehicle.totalFuelConsumed v + f)%float |}.

(** [vehicle.totalDistance -= d; vehicle.totalFuelConsumed -= f] *)
Definition subTotals (v : Vehicle.t) (d f : float) : Vehicle.t :=
  {| Vehicle.id := Vehicle.id v;
     Vehicle.name := Vehicle.name v;
     Vehicle.fuelType := Vehicle.fuelType v;
     Vehicle.createdAt := Vehicle.createdAt v;
     Vehicle.totalDistance := (Vehicle.totalDistance v - d)%float;
     Vehicle.totalFuelConsumed := (Vehicle.totalFuelConsumed v - f)%float |}.

(** The vehicles after the statements [f] were run on the object that
    [this.vehicles.find(v => v.id === vehicleId)] returns, which is the first
    element with that id; unchanged when there is none ([if (vehicle)]). *)
Fixpoint withVehicle (vehicleId : string) (f : Vehicle.t -> Vehicle.t)
    (vs : list Vehicle.t) : list Vehicle.t :=
  match vs with
  | [] => []
  | v :: vs' =>
      if hasId vehicleId v then f v :: vs'
      else v :: withVehicle vehicleId f vs'
  end.

(** [recordFuelConsumption(vehicleId, fuelAmount, distance, date = null,
    notes = '')]; [genId] is the result of [this.generateId()], [nowDate]
    and [nowCreated] those of the two [new Date().toISOString()]. *)
Definition recordFuelConsumption (st : Tracker) (genId nowDate nowCreated : string)
    (vehicleId : string) (fuelAmount distance : float)
    (date : option string) (notes : string) : outcome FuelRecord.t :=
  match getVehicle st vehicleId with
  | None => throw st (NotFoundError ("Vehicle with ID " ++ vehicleId ++ " not found"))
  | Some _ =>
      let record :=
        {| FuelRecord.id := genId;
           FuelRecord.vehicleId := vehicleId;
           FuelRecord.fuelAmount := parseFloat fuelAmount;
           FuelRecord.distance := parseFloat distance;
           FuelRecord.consumption := round2 (distance / fuelAmount);
           FuelRecord.date :=
             match date with
             | Some d => if String.eqb d "" then nowDate else d
             | None => nowDate
             end;
           FuelRecord.notes := notes;
           FuelRecord.createdAt := nowCreated |} in
      ret {| fuelRecords := fuelRecords st ++ [record];
             vehicles :=
               withVehicle vehicleId
                 (fun v => addTotals v (FuelRecord.distance record)
                                      (FuelRecord.fuelAmount record))
                 (vehicles st) |}
          record
  end.

(** [getVehicleRecords(vehicleId)] *)
Definition getVehicleRecords (st : Tracker) (vehicleId : string) : list FuelRecord.t :=
  filter (ofVehicle vehicleId) (fuelRecords st).

(** [records.reduce((sum, r) => sum + f(r), 0)] *)
Definition reduceSum (f : FuelRecord.t -> float) (records : list FuelRecord.t) : float :=
  fold_left (fun sum r => (sum + f r)%float) records 0%float.

(** [getAverageConsumption(vehicleId)] *)
Definition getAverageConsumption (st : Tracker) (vehicleId : string) : float :=
  let records := getVehicleRecords st vehicleId in
  if Nat.eqb (List.length records) 0 then 0%float
  else
    let totalKm := reduceSum FuelRecord.distance records in
    let totalLiters := reduceSum FuelRecord.fuelAmount records in
    if (0 <? totalLiters)%float then round2 (totalKm / totalLiters) else 0%float.

(** The [updates] argument of [updateRecord]: a key is [None] when
    [updates.key === undefined]. *)
Module Updates.
Record t := mk {
  fuelAmount : option float;
  distance : option float;
  date : option string;
  notes : option string
}.
Definition empty : t :=
  {| fuelAmount := None; distance := None; date := None; notes := None |}.
End Updates.

(** The record after the four conditional assignments of [updateRecord]. *)
Definition patch (record : FuelRecord.t) (updates : Updates.t) : FuelRecord.t :=
  {| FuelRecord.id := FuelRecord.id record;
     FuelRecord.vehicleId := FuelRecord.vehicleId record;
     FuelRecord.fuelAmount :=
       match Updates.fuelAmount updates with
       | Some x => parseFloat x
       | None => FuelRecord.fuelAmount record
       end;
     FuelRecord.distance :=
       match Updates.distance updates with
       | Some x => parseFloat x
       | None => FuelRecord.distance record
       end;
     FuelRecord.consumption := FuelRecord.consumption record;
     FuelRecord.date :=
       match Updates.date updates with
       | Some d => d
       | None => FuelRecord.date record
       end;
     FuelRecord.notes :=
       match Updates.notes updates with
       | Some n => n
       | None => FuelRecord.notes record
       end;
     FuelRecord.createdAt := FuelRecord.createdAt record |}.

(** [if (record.distance > 0 && record.fuelAmount > 0) record.consumption =
    parseFloat((record.distance / record.fuelAmount).toFixed(2))] *)
Definition recalculate (record : FuelRecord.t) : FuelRecord.t :=
  if ((0 <? FuelRecord.distance record) && (0 <? FuelRecord.fuelAmount record))%float
  then
    {| FuelRecord.id := FuelRecord.id record;
       FuelRecord.vehicleId := FuelRecord.vehicleId record;
       FuelRecord.fuelAmount := FuelRecord.fuelAmount record;
       FuelRecord.distance := FuelRecord.distance record;
       FuelRecord.consumption :=
         round2 (FuelRecord.distance record / FuelRecord.fuelAmount record);
       FuelRecord.date := FuelRecord.date record;
       FuelRecord.notes := FuelRecord.notes record;
       FuelRecord.createdAt := FuelRecord.createdAt record |}
  else record.

(** [updateRecord(recordId, updates)].  [oldRecord] is the copy taken before
    the patch; the four assignments to the totals are kept in the order of
    the source.  The index that [findIndex] returns is inside the array, so
    the branch for an element that is not there is never taken. *)
Definition updateRecord (st : Tracker) (recordId : string) (updates : Updates.t)
    : outcome FuelRecord.t :=
  match findIndex (recordHasId recordId) (fuelRecords st) with
  | None => throw st (NotFoundError ("Record with ID " ++ recordId ++ " not found"))
  | Some recordIndex =>
      match nth_error (fuelRecords st) recordIndex with
      | None => throw st (NotFoundError ("Record with ID " ++ recordId ++ " not found"))
      | Some oldRecord =>
          let record := recalculate (patch oldRecord updates) in
          ret {| fuelRecords := assign recordIndex record (fuelRecords st);
                 vehicles :=
                   withVehicle (FuelRecord.vehicleId record)
                     (fun v =>
                        {| Vehicle.id := Vehicle.id v;
                           Vehicle.name := Vehicle.name v;
                           Vehicle.fuelType := Vehicle.fuelType v;
                           Vehicle.createdAt := Vehicle.createdAt v;
                           Vehicle.totalDistance :=
                             (Vehicle.totalDistance v - FuelRecord.distance oldRecord
                              + FuelRecord.distance record)%float;
                           Vehicle.totalFuelConsumed :=
                             (Vehicle.totalFuelConsumed v - FuelRecord.fuelAmount oldRecord
                              + FuelRecord.fuelAmount record)%float |})
                     (vehicles st) |}
              record
      end
  end.

(** [deleteRecord(recordId)]; as in [updateRecord], the element at the
    index found is always there. *)
Definition deleteRecord (st : Tracker) (recordId : string) : outcome bool :=
  match findIndex (recordHasId recordId) (fuelRecords st) with
  | None => throw st (NotFoundError ("Record with ID " ++ recordId ++ " not found"))
  | Some recordIndex =>
      match nth_error (fuelRecords st) recordIndex with
      | None => throw st (NotFoundError ("Record with ID " ++ recordId ++ " not found"))
      | Some record =>
          ret {| fuelRecords := splice1 recordIndex (fuelRecords st);
                 vehicles :=
                   withVehicle (FuelRecord.vehicleId record)
                     (fun v => subTotals v (FuelRecord.distance record)
                                           (FuelRecord.fuelAmount record))
                     (vehicles st) |}
              true
      end
  end.

(** [deleteVehicle(vehicleId)] *)
Definition deleteVehicle (st : Tracker) (vehicleId : string) : outcome bool :=
  match findIndex (hasId vehicleId) (vehicles st) with
  | None => throw st (NotFoundError ("Vehicle with ID " ++ vehicleId ++ " not found"))
  | Some vehicleIndex =>
      ret {| fuelRecords :=
               filter (fun r => negb (ofVehicle vehicleId r)) (fuelRecords st);
             vehicles := splice1 vehicleIndex (vehicles st) |}
          true
  end.

(** ** JSON *)

(** The values [JSON.parse] returns. *)
#[local] Unset Elimination Schemes.
Inductive JSON :=
| JNull
| JBool (b : bool)
| JNumber (x : float)
| JString (s : string)
| JArray (items : list JSON)
| JObject (members : list (string * JSON)).
#[local] Set Elimination Schemes.

(** A JSON text is represented by the value it denotes; [Malformed] is any
    string on which [JSON.parse] throws a [SyntaxError].  [JSON.stringify]
    and [JSON.parse] are taken to be inverse of each other on such values. *)
Inductive JSONText :=
| Malformed
| Document (value : JSON).

(** The member [key] of a parsed object: of two members with the same key
    the later one is kept. *)
Fixpoint property (key : string) (members : list (string * JSON)) : option JSON :=
  match members with
  | [] => None
  | (k, v) :: rest =>
      match property key rest with
      | Some v' => Some v'
      | None => if String.eqb k key then Some v else None
      end
  end.

(** [data.key] for a parsed value other than [null]; [None] stands for
    [undefined], which is what numbers, strings, booleans and arrays answer
    for the keys used here. *)
Definition member (data : JSON) (key : string) : option JSON :=
  match data with
  | JObject members => property key members
  | _ => None
  end.

(** [if (value)]: the truthiness of a parsed value. *)
Definition truthy (value : JSON) : bool :=
  match value with
  | JNull => false
  | JBool b => b
  | JNumber x => negb (is_zero x || is_nan x)
  | JString s => negb (String.eqb s "")
  | JArray _ | JObject _ => true
  end.

(** What [JSON.stringify] writes for a number: [null] for [NaN] and the
    infinities, ["0"] for both zeros. *)
Definition numberToJSON (x : float) : JSON :=
  if is_finite x then JNumber (if is_zero x then zero else x) else JNull.

Definition vehicleToJSON (v : Vehicle.t) : JSON :=
  JObject
    [ ("id", JString (Vehicle.id v));
      ("name", JString (Vehicle.name v));
      ("fuelType", JString (Vehicle.fuelType v));
      ("createdAt", JString (Vehicle.createdAt v));
      ("totalDistance", numberToJSON (Vehicle.totalDistance v));
      ("totalFuelConsumed", numberToJSON (Vehicle.totalFuelConsumed v)) ].

Definition recordToJSON (r : FuelRecord.t) : JSON :=
  JObject
    [ ("id", JString (FuelRecord.id r));
      ("vehicleId", JString (FuelRecord.vehicleId r));
      ("fuelAmount", numberToJSON (FuelRecord.fuelAmount r));
      ("distance", numberToJSON (FuelRecord.distance r));
      ("consumption", numberToJSON (FuelRecord.consumption r));
      ("date", JString (FuelRecord.date r));
      ("notes", JString (FuelRecord.notes r));
      ("createdAt", JString (FuelRecord.createdAt r)) ].

(** [exportData()]; [now] is [new Date().toISOString()]. *)
Definition exportData (st : Tracker) (now : string) : JSONText :=
  Document
    (JObject
       [ ("vehicles", JArray (map vehicleToJSON (vehicles st)));
         ("records", JArray (map recordToJSON (fuelRecords st)));
         ("exportedAt", JString now) ]).

(** A parsed value seen as an object of the data model: exactly the keys of
    the model, in any order, each with a value of its type. *)
Definition asVehicle (value : JSON) : option Vehicle.t :=
  match value with
  | JObject ms =>
      match property "id" ms, property "name" ms, property "fuelType" ms,
            property "createdAt" ms, property "totalDistance" ms,
            property "totalFuelConsumed" ms with
      | Some (JString i), Some (JString n), Some (JString t),
        Some (JString c), Some (JNumber d), Some (JNumber f) =>
          if Nat.eqb (List.length ms) 6
          then Some (Vehicle.mk i n t c d f)
          else None
      | _, _, _, _, _, _ => None
      end
  | _ => None
  end.

Definition asFuelRecord (value : JSON) : option FuelRecord.t :=
  match value with
  | JObject ms =>
      match property "id" ms, property "vehicleId" ms, property "fuelAmount" ms,
            property "distance" ms, property "consumption" ms,
            property "date" ms, property "notes" ms, property "createdAt" ms with
      | Some (JString i), Some (JString v), Some (JNumber f), Some (JNumber d),
        Some (JNumber c), Some (JString dt), Some (JString n), Some (JString cr) =>
          if Nat.eqb (List.length ms) 8
          then Some (FuelRecord.mk i v f d c dt n cr)
          else None
      | _, _, _, _, _, _, _, _ => None
      end
  | _ => None
  end.

Fixpoint allOf {A} (view : JSON -> option A) (items : list JSON) : option (list A) :=
  match items with
  | [] => Some []
  | j :: rest =>
      match view j, allOf view rest with
      | Some a, Some l => Some (a :: l)
      | _, _ => None
      end
  end.

Definition asArrayOf {A} (view : JSON -> option A) (value : JSON) : option (list A) :=
  match value with
  | JArray items => allOf view items
  | _ => None
  end.

(** What a call of [importData] does.  The source assigns whatever truthy
    value it finds under [vehicles] and [records]; when that value is not an
    array of objects of the data model, the store holds a value that no
    [Tracker] describes, and the call is [Untyped]. *)
Inductive Import :=
| Threw (e : Error)
| Returned (st' : Tracker) (data : JSON)
| Untyped (data : JSON).

(** The collection after [if (data.key) this.collection = data.key]. *)
Definition replaceWith {A} (view : JSON -> option A) (data : JSON) (key : string)
    (current : list A) : option (list A) :=
  match member data key with
  | Some value => if truthy value then asArrayOf view value else Some current
  | None => Some current
  end.

(** [importData(jsonData)].  Inside the [try], [JSON.parse] throws on a
    malformed text and [data.vehicles] throws on [null]; the [catch] turns
    both into the error of the method.  Nothing was assigned before. *)
Definition importData (st : Tracker) (jsonData : JSONText) : Import :=
  match jsonData with
  | Malformed => Threw (ImportError "Invalid JSON format for import")
  | Document JNull => Threw (ImportError "Invalid JSON format for import")
  | Document data =>
      match replaceWith asVehicle data "vehicles" (vehicles st),
            replaceWith asFuelRecord data "records" (fuelRecords st) with
      | Some vs, Some rs => Returned {| fuelRecords := rs; vehicles := vs |} data
      | _, _ => Untyped data
      end
  end.

(** ** Sequences of record operations *)

Inductive Op :=
| RecordFuelConsumption (genId nowDate nowCreated vehicleId : string)
    (fuelAmount distance : float) (date : option string) (notes : string)
| UpdateRecord (recordId : string) (updates : Updates.t)
| DeleteRecord (recordId : string).

(** The store after one call; a call that throws leaves it as it was. *)
Definition step (st : Tracker) (op : Op) : Tracker :=
  match op with
  | RecordFuelConsumption genId nowDate nowCreated vehicleId fuelAmount distance date notes =>
      fst (recordFuelConsumption st genId nowDate nowCreated vehicleId
             fuelAmount distance date notes)
  | UpdateRecord recordId updates => fst (updateRecord st recordId updates)
  | DeleteRecord recordId => fst (deleteRecord st recordId)
  end.

Definition run (st : Tracker) (ops : list Op) : Tracker := fold_left step ops st.

(** ** The aggregate invariant *)

(** The exact sum of finite numbers, in units of [2^-1074]; [None] as soon
    as one of them is [NaN] or infinite. *)
Fixpoint exactSum (values : list float) : option Z :=
  match values with
  | [] => Some 0%Z
  | x :: rest =>
      match exact x, exactSum rest with
      | Some a, Some s => Some (a + s)%Z
      | _, _ => None
      end
  end.

(** The number [total] is the sum of [values]. *)
Definition isSumOf (total : float) (values : list float) : Prop :=
  exists z, exact total = Some z /\ exactSum values = Some z.

(** The totals of [v] are the sums over the records that carry its id. *)
Definition consistent (st : Tracker) (v : Vehicle.t) : Prop :=
  isSumOf (Vehicle.totalDistance v)
    (map FuelRecord.distance (getVehicleRecords st (Vehicle.id v)))
  /\ isSumOf (Vehicle.totalFuelConsumed v)
       (map FuelRecord.fuelAmount (getVehicleRecords st (Vehicle.id v))).

(** The invariant for every vehicle of the store. *)
Definition allConsistent (st : Tracker) : Prop :=
  forall v, In v (vehicles st) -> consistent st v.

(** The invariant for the vehicles that [find] reaches: of several
    vehicles with one id, the first. *)
Definition foundConsistent (st : Tracker) : Prop :=
  forall vehicleId v, getVehicle st vehicleId = Some v -> consistent st v.

(** The additions and subtractions that [op] performs on the totals of a
    vehicle round nothing (and meet neither [NaN] nor an infinity). *)
Definition exactStep (st : Tracker) (op : Op) : bool :=
  match op with
  | RecordFuelConsumption _ _ _ vehicleId fuelAmount distance _ _ =>
      match getVehicle st vehicleId with
      | Some v =>
          exact_add (Vehicle.totalDistance v) (parseFloat distance)
          && exact_add (Vehicle.totalFuelConsumed v) (parseFloat fuelAmount)
      | None => true
      end
  | UpdateRecord recordId updates =>
      match find (recordHasId recordId) (fuelRecords st) with
      | Some oldRecord =>
          let record := recalculate (patch oldRecord updates) in
          match getVehicle st (FuelRecord.vehicleId oldRecord) with
          | Some v =>
              exact_sub (Vehicle.totalDistance v) (FuelRecord.distance oldRecord)
              && exact_add (Vehicle.totalDistance v - FuelRecord.distance oldRecord)
                           (FuelRecord.distance record)
              && exact_sub (Vehicle.totalFuelConsumed v) (FuelRecord.fuelAmount oldRecord)
              && exact_add (Vehicle.totalFuelConsumed v - FuelRecord.fuelAmount oldRecord)
                           (FuelRecord.fuelAmount record)
          | None => true
          end
      | None => true
      end
  | DeleteRecord recordId =>
      match find (recordHasId recordId) (fuelRecords st) with
      | Some record =>
          match getVehicle st (FuelRecord.vehicleId record) with
          | Some v =>
              exact_sub (Vehicle.totalDistance v) (FuelRecord.distance record)
              && exact_sub (Vehicle.totalFuelConsumed v) (FuelRecord.fuelAmount record)
          | None => true
          end
      | None => true
      end
  end.

Fixpoint exactRun (st : Tracker) (ops : list Op) : bool :=
  match ops with
  | [] => true
  | op :: ops' => exactStep st op && exactRun (step st op) ops'
  end.

(** ** Predicates of the specification *)

(** The result the specification gives for [getAverageConsumption]: 0
    without records, 0 when the total fuel is exactly zero, and the rounded
    quotient otherwise. *)
Definition specifiedAverage (st : Tracker) (vehicleId : string) : float :=
  let records := getVehicleRecords st vehicleId in
  match records with
  | [] => 0%float
  | _ :: _ =>
      let totalKm := reduceSum FuelRecord.distance records in
      let totalLiters := reduceSum FuelRecord.fuelAmount records in
      if is_zero totalLiters then 0%float else round2 (totalKm / totalLiters)
  end.

(** The snapshot structure of the specification: an object whose
    [vehicles], when present, is an array of vehicles and whose [records],
    when present, is an array of fuel records. *)
Definition isSnapshot (jsonData : JSONText) : bool :=
  match jsonData with
  | Document (JObject members) =>
      match property "vehicles" members with
      | Some value =>
          match asArrayOf asVehicle value with Some _ => true | None => false end
      | None => true
      end
      && match property "records" members with
         | Some value =>
             match asArrayOf asFuelRecord value with Some _ => true | None => false end
         | None => true
         end
  | _ => false
  end.

(** A number that [JSON.stringify] writes and [JSON.parse] reads back as
    itself: finite, and not the negative zero. *)
Definition plain (x : float) : bool :=
  is_finite x && negb (PrimFloat.Leibniz.eqb x neg_zero).

Definition plainVehicle (v : Vehicle.t) : bool :=
  plain (Vehicle.totalDistance v) && plain (Vehicle.totalFuelConsumed v).

Definition plainRecord (r : FuelRecord.t) : bool :=
  plain (FuelRecord.fuelAmount r) && plain (FuelRecord.distance r)
  && plain (FuelRecord.consumption r).

Definition plainStore (st : Tracker) : bool :=
  forallb plainVehicle (vehicles st) && forallb plainRecord (fuelRecords st).

(** The consumption of a record is the one [updateRecord] would compute
    from its distance and fuel amount. *)
Definition upToDate (r : FuelRecord.t) : Prop :=
  ((0 <? FuelRecord.distance r) && (0 <? FuelRecord.fuelAmount r))%float = true ->
  FuelRecord.consumption r
  = round2 (FuelRecord.distance r / FuelRecord.fuelAmount r).


(** ** The remaining operations *)

(** [getAllVehicles()] *)
Definition getAllVehicles (st : Tracker) : list Vehicle.t := vehicles st.

(** [clearAllData()], without [localStorage]. *)
Definition clearAllData (st : Tracker) : Tracker :=
  {| fuelRecords := []; vehicles := [] |}.

(** The loop of [Math.min]: [lowest] starts at the infinity; a [NaN] ends
    the loop with [NaN]; the negative zero replaces a positive zero; a
    number below [lowest] replaces it. *)
Fixpoint minLoop (lowest : float) (values : list float) : float :=
  match values with
  | [] => lowest
  | x :: rest =>
      if is_nan x then nan
      else if PrimFloat.Leibniz.eqb x neg_zero && PrimFloat.Leibniz.eqb lowest zero
           then minLoop neg_zero rest
           else if (x <? lowest)%float then minLoop x rest
                else minLoop lowest rest
  end.

(** [Math.min(...values)] *)
Definition Math_min (values : list float) : float := minLoop infinity values.

(** The loop of [Math.max]: [highest] starts at the negative infinity; a
    [NaN] ends the loop with [NaN]; the positive zero replaces a negative
    zero; a number above [highest] replaces it. *)
Fixpoint maxLoop (highest : float) (values : list float) : float :=
  match values with
  | [] => highest
  | x :: rest =>
      if is_nan x then nan
      else if PrimFloat.Leibniz.eqb x zero && PrimFloat.Leibniz.eqb highest neg_zero
           then maxLoop zero rest
           else if (highest <? x)%float then maxLoop x rest
                else maxLoop highest rest
  end.

(** [Math.max(...values)] *)
Definition Math_max (values : list float) : float := maxLoop neg_infinity values.

(** The object that [getConsumptionStats] returns; [count] is a length. *)
Module Stats.
Record t := mk {
  count : nat;
  totalDistance : float;
  totalFuel : float;
  averageConsumption : float;
  minConsumption : float;
  maxConsumption : float
}.
End Stats.

(** [getConsumptionStats(vehicleId)] *)
Definition getConsumptionStats (st : Tracker) (vehicleId : string) : Stats.t :=
  let records := getVehicleRecords st vehicleId in
  if Nat.eqb (List.length records) 0
  then
    {| Stats.count := 0;
       Stats.totalDistance := 0;
       Stats.totalFuel := 0;
       Stats.averageConsumption := 0;
       Stats.minConsumption := 0;
       Stats.maxConsumption := 0 |}
  else
    let consumptions := map FuelRecord.consumption records in
    let totalDistance := reduceSum FuelRecord.distance records in
    let totalFuel := reduceSum FuelRecord.fuelAmount records in
    {| Stats.count := List.length records;
       Stats.totalDistance := round2 totalDistance;
       Stats.totalFuel := round2 totalFuel;
       Stats.averageConsumption := round2 (totalDistance / totalFuel);
       Stats.minConsumption := Math_min consumptions;
       Stats.maxConsumption := Math_max consumptions |}.

(** [getRecordsByDateRange(vehicleId, startDate, endDate)].  The parsing of
    dates belongs to the engine: [getTime date] is
    [new Date(date).getTime()] for the [date] string of a record, which is
    [NaN] for a string that is no date.  The two [Date] arguments are given
    by their time values [start] and [end_], which [new Date(d).getTime()]
    returns as they are. *)
Definition getRecordsByDateRange (getTime : string -> float)
    (st : Tracker) (vehicleId : string) (start end_ : float) : list FuelRecord.t :=
  filter
    (fun record =>
       let recordTime := getTime (FuelRecord.date record) in
       ((start <=? recordTime) && (recordTime <=? end_))%float)
    (getVehicleRecords st vehicleId).

(** ** The persistent store *)

(** What [localStorage.getItem] returns for one key: [null], the empty
    string, or a string that is not empty, given as a JSON text. *)
Inductive Item :=
| NoItem
| EmptyString
| Stored (text : JSONText).

(** The two keys of [localStorage] that the class uses. *)
Module Storage.
Record t := mk {
  fuelTrackerVehicles : Item;
  fuelTrackerRecords : Item
}.
End Storage.

(** The two keys after [saveToStorage()], with which every method that
    changes the store ends when there is a [localStorage]. *)
Definition saveToStorage (st : Tracker) : Storage.t :=
  {| Storage.fuelTrackerVehicles :=
       Stored (Document (JArray (map vehicleToJSON (vehicles st))));
     Storage.fuelTrackerRecords :=
       Stored (Document (JArray (map recordToJSON (fuelRecords st)))) |}.

(** The two keys after the [removeItem] calls of [clearAllData()]. *)
Definition clearedStorage : Storage.t :=
  {| Storage.fuelTrackerVehicles := NoItem; Storage.fuelTrackerRecords := NoItem |}.

(** What [new FuelConsumptionTracker()] does when there is a
    [localStorage]: the [SyntaxError] of [JSON.parse] is not caught; a parsed
    value that is not an array of objects of the data model is assigned as it
    is, which no [Tracker] describes. *)
Inductive Load :=
| LoadThrew
| Loaded (st : Tracker)
| LoadedUntyped.

(** [if (item) this.collection = JSON.parse(item)] *)
Inductive Parsed (A : Type) :=
| ParseThrew
| ParsedTo (l : list A)
| ParsedUntyped.
Arguments ParseThrew {A}.
Arguments ParsedTo {A} l.
Arguments ParsedUntyped {A}.

Definition parseItem {A} (view : JSON -> option A) (item : Item)
    (current : list A) : Parsed A :=
  match item with
  | NoItem | EmptyString => ParsedTo current
  | Stored Malformed => ParseThrew
  | Stored (Document value) =>
      match asArrayOf view value with
      | Some l => ParsedTo l
      | None => ParsedUntyped
      end
  end.

(** [loadFromStorage()] on the store [st].  The vehicles are parsed and
    assigned before the records are parsed. *)
Definition loadFromStorage (st : Tracker) (storage : Storage.t) : Load :=
  match parseItem asVehicle (Storage.fuelTrackerVehicles storage) (vehicles st) with
  | ParseThrew => LoadThrew
  | ParsedTo vs =>
      match parseItem asFuelRecord (Storage.fuelTrackerRecords storage)
              (fuelRecords st) with
      | ParseThrew => LoadThrew
      | ParsedTo rs => Loaded {| fuelRecords := rs; vehicles := vs |}
      | ParsedUntyped => LoadedUntyped
      end
  | ParsedUntyped =>
      match Storage.fuelTrackerRecords storage with
      | Stored Malformed => LoadThrew
      | _ => LoadedUntyped
      end
  end.

(** [new FuelConsumptionTracker()] with a [localStorage] that holds
    [storage]. *)
Definition constructorWith (storage : Storage.t) : Load :=
  loadFromStorage {| fuelRecords := []; vehicles := [] |} storage.

(** ** Sequences of calls *)

(** The calls that change the store, [importData] apart. *)
Inductive Call :=
| OnRecords (op : Op)
| AddVehicle (now vehicleId name : string) (fuelType : option string)
| DeleteVehicle (vehicleId : string)
| ClearAllData.

(** The store after one call; a call that throws leaves it as it was. *)
Definition call (st : Tracker) (c : Call) : Tracker :=
  match c with
  | OnRecords op => step st op
  | AddVehicle now vehicleId name fuelType =>
      fst (addVehicle st now vehicleId name fuelType)
  | DeleteVehicle vehicleId => fst (deleteVehicle st vehicleId)
  | ClearAllData => clearAllData st
  end.

Definition session (st : Tracker) (calls : list Call) : Tracker :=
  fold_left call calls st.

(** ** Further predicates *)

(** The place of a number on the number line, in units of [2^-1074], with
    the infinities beyond every finite number; [None] for [NaN]. *)
Definition position (x : float) : option Z :=
  match Prim2SF x with
  | S754_nan => None
  | S754_zero _ => Some 0%Z
  | S754_infinity s => Some (if s then (- 2 ^ 2100)%Z else (2 ^ 2100)%Z)
  | S754_finite s m e =>
      let v := (Z.pos m * 2 ^ (e + 1074))%Z in
      Some (if s then (- v)%Z else v)
  end.

(** Every record belongs to a vehicle of the store. *)
Definition referenced (st : Tracker) : Prop :=
  forall r, In r (fuelRecords st) -> getVehicle st (FuelRecord.vehicleId r) <> None.

(** No two vehicles share an id. *)
Definition distinctVehicles (st : Tracker) : Prop :=
  NoDup (map Vehicle.id (vehicles st)).

(** No two records share an id. *)
Definition distinctRecords (st : Tracker) : Prop :=
  NoDup (map FuelRecord.id (fuelRecords st)).

(** A call that the invariants of the store allow: the arithmetic of a
    record operation is exact and the id that [generateId] returned is not
    the id of a record; an added vehicle has a new id. *)
Definition admissible (st : Tracker) (c : Call) : bool :=
  match c with
  | OnRecords op =>
      exactStep st op
      && match op with
         | RecordFuelConsumption genId _ _ _ _ _ _ _ =>
             match find (recordHasId genId) (fuelRecords st) with
             | Some _ => false
             | None => true
             end
         | _ => true
         end
  | AddVehicle _ vehicleId _ _ =>
      match getVehicle st vehicleId with
      | Some _ => false
      | None => true
      end
  | DeleteVehicle _ | ClearAllData => true
  end.

Fixpoint admissibleSession (st : Tracker) (calls : list Call) : bool :=
  match calls with
  | [] => true
  | c :: calls' => admissible st c && admissibleSession (call st c) calls'
  end.

(** * Properties *)

(** ** Arrays *)

Section ArrayFacts.
Context {A : Type}.
Implicit Types (p : A -> bool) (l : list A).

Lemma findIndex_find p l i :
  findIndex p l = Some i ->
  exists x, nth_error l i = Some x /\ find p l = Some x /\ p x = true.
Proof.
  revert i. induction l as [|a l IH]; intros i H; simpl in *; [discriminate|].
  destruct (p a) eqn:Hp.
  - injection H as <-. exists a. auto.
  - destruct (findIndex p l) as [j|]; [|discriminate].
    injection H as <-. destruct (IH j eq_refl) as (x & Hn & Hf & Hx).
    exists x. auto.
Qed.

Lemma findIndex_None p l : findIndex p l = None <-> find p l = None.
Proof.
  induction l as [|a l IH]; simpl; [tauto|].
  destruct (p a); [split; discriminate|].
  destruct (findIndex p l); split; intros H; try discriminate.
  - apply IH in H. discriminate.
  - now apply IH.
  - reflexivity.
Qed.

Lemma find_findIndex p l x :
  find p l = Some x -> exists i, findIndex p l = Some i /\ nth_error l i = Some x.
Proof.
  intros H. destruct (findIndex p l) as [i|] eqn:Hi.
  - destruct (findIndex_find _ _ _ Hi) as (y & Hn & Hf & _).
    exists i. split; [reflexivity|congruence].
  - apply findIndex_None in Hi. congruence.
Qed.

Lemma filter_assign p l i x y :
  nth_error l i = Some x -> p x = false -> p y = false ->
  filter p (assign i y l) = filter p l.
Proof.
  revert i. induction l as [|a l IH]; intros [|i] H Hx Hy; simpl in *; try discriminate.
  - injection H as ->. now rewrite Hx, Hy.
  - now rewrite (IH i).
Qed.

Lemma filter_splice1 p l i x :
  nth_error l i = Some x -> p x = false ->
  filter p (splice1 i l) = filter p l.
Proof.
  revert i. induction l as [|a l IH]; intros [|i] H Hx; simpl in *; try discriminate.
  - injection H as ->. now rewrite Hx.
  - now rewrite (IH i).
Qed.
End ArrayFacts.

(** ** Numbers *)

Module NumberFacts.

Local Open Scope float_scope.

Lemma SFcompare_refl x : x <> S754_nan -> SFcompare x x = Some Eq.
Proof.
  destruct x as [s|s| |s m e]; intros H; simpl; try (now destruct s); [congruence|].
  rewrite Z.compare_refl, Pos.compare_cont_refl. now destruct s.
Qed.

Lemma is_nan_spec x : is_nan x = true <-> x = nan.
Proof.
  split.
  - unfold is_nan. rewrite eqb_spec. unfold SFeqb. intros H.
    apply Prim2SF_inj. change (Prim2SF nan) with S754_nan.
    destruct (Prim2SF x) eqn:E; try reflexivity;
      rewrite SFcompare_refl in H by discriminate; discriminate.
  - intros ->. reflexivity.
Qed.

Lemma is_zero_spec x : is_zero x = true <-> exists s, Prim2SF x = S754_zero s.
Proof.
  unfold is_zero. rewrite eqb_spec. change (Prim2SF zero) with (S754_zero false).
  unfold SFeqb. destruct (Prim2SF x) as [s|s| |s m e]; simpl; split;
    try discriminate; try (now destruct s); eauto;
    intros [s' H]; discriminate.
Qed.

Lemma add_nan_l x : nan + x = nan.
Proof. apply Prim2SF_inj. rewrite add_spec. reflexivity. Qed.

Lemma add_nan_r x : x + nan = nan.
Proof.
  apply Prim2SF_inj. rewrite add_spec. change (Prim2SF nan) with S754_nan.
  now destruct (Prim2SF x).
Qed.

Lemma sub_nan_l x : nan - x = nan.
Proof. apply Prim2SF_inj. rewrite sub_spec. reflexivity. Qed.

Lemma sub_nan_r x : x - nan = nan.
Proof.
  apply Prim2SF_inj. rewrite sub_spec. change (Prim2SF nan) with S754_nan.
  now destruct (Prim2SF x).
Qed.

(** A quotient by a zero is [NaN] or an infinity. *)
Lemma div_zero d f :
  is_zero f = true ->
  Prim2SF (d / f) = S754_nan \/ exists s, Prim2SF (d / f) = S754_infinity s.
Proof.
  intros H. apply is_zero_spec in H as [s H].
  rewrite div_spec, H. unfold SF64div, SFdiv.
  destruct (Prim2SF d); eauto.
Qed.

Lemma round2_nonfinite x :
  Prim2SF x = S754_nan \/ (exists s, Prim2SF x = S754_infinity s) ->
  is_finite (round2 x) = false.
Proof.
  unfold round2. intros [H|[s H]]; rewrite H; [reflexivity|].
  now destruct s.
Qed.

Lemma round2_div_zero d f : is_zero f = true -> is_finite (round2 (d / f)) = false.
Proof. intros H. apply round2_nonfinite, div_zero, H. Qed.

(** [0 < x] is false for a zero, a negative number and [NaN]. *)
Lemma not_positive x :
  is_zero x = true \/ (x <? 0) = true \/ is_nan x = true -> (0 <? x) = false.
Proof.
  rewrite !ltb_spec. change (Prim2SF 0) with (S754_zero false).
  intros [H|[H|H]].
  - apply is_zero_spec in H as [s ->]. reflexivity.
  - unfold SFltb in *. destruct (Prim2SF x) as [s|s| |s m e]; simpl in *;
      try discriminate; now destruct s.
  - apply is_nan_spec in H as ->. reflexivity.
Qed.

Lemma positive_cases x :
  (0 <? x) = false -> is_zero x = true \/ (x <? 0) = true \/ is_nan x = true.
Proof.
  intros H. destruct (is_zero x) eqn:Hz; [now left|right].
  destruct (is_nan x) eqn:Hn; [now right|left].
  rewrite ltb_spec in *. change (Prim2SF 0) with (S754_zero false) in *.
  assert (Prim2SF x <> S754_nan) as Hnn.
  { intros E. assert (x = nan) as -> by (apply Prim2SF_inj; exact E). discriminate. }
  assert (forall s, Prim2SF x <> S754_zero s) as Hnz.
  { intros s E. assert (is_zero x = true) by (apply is_zero_spec; eauto). congruence. }
  unfold SFltb in *. destruct (Prim2SF x) as [s|s| |s m e]; simpl in *.
  - now elim (Hnz s).
  - now destruct s.
  - congruence.
  - now destruct s.
Qed.

End NumberFacts.

(** ** Exact values *)

Module ExactFacts.

Local Open Scope Z_scope.

(** The number of binary digits of a mantissa. *)
Lemma digits2_bounds m :
  2 ^ (Z.pos (digits2_pos m) - 1) <= Z.pos m < 2 ^ Z.pos (digits2_pos m).
Proof.
  induction m as [m IH|m IH|]; cbn [digits2_pos].
  - rewrite Pos2Z.inj_succ. change (Z.pos m~1) with (2 * Z.pos m + 1).
    replace (Z.succ (Z.pos (digits2_pos m)) - 1) with (Z.succ (Z.pos (digits2_pos m) - 1)) by lia.
    rewrite !Z.pow_succ_r by lia.
    revert IH. generalize (2 ^ (Z.pos (digits2_pos m) - 1)) (2 ^ Z.pos (digits2_pos m)). lia.
  - rewrite Pos2Z.inj_succ. change (Z.pos m~0) with (2 * Z.pos m).
    replace (Z.succ (Z.pos (digits2_pos m)) - 1) with (Z.succ (Z.pos (digits2_pos m) - 1)) by lia.
    rewrite !Z.pow_succ_r by lia.
    revert IH. generalize (2 ^ (Z.pos (digits2_pos m) - 1)) (2 ^ Z.pos (digits2_pos m)). lia.
  - simpl. lia.
Qed.

(** The exponent of a valid finite number is the canonical one. *)
Lemma valid_finite s m e :
  valid_binary (S754_finite s m e) = true ->
  e = Z.max (Z.pos (digits2_pos m) + e - 53) (-1074).
Proof.
  unfold valid_binary, bounded, canonical_mantissa, fexp, SpecFloat.emin.
  change prec with 53. change emax with 1024.
  intros H. apply andb_true_iff in H as [H _]. apply Z.eqb_eq in H. lia.
Qed.

(** Two valid finite numbers of the same magnitude have the same mantissa
    and exponent. *)
Lemma finite_value_inj s1 m1 e1 s2 m2 e2 :
  valid_binary (S754_finite s1 m1 e1) = true ->
  valid_binary (S754_finite s2 m2 e2) = true ->
  Z.pos m1 * 2 ^ (e1 + 1074) = Z.pos m2 * 2 ^ (e2 + 1074) ->
  m1 = m2 /\ e1 = e2.
Proof.
  intros H1 H2 E. apply valid_finite in H1, H2.
  pose proof (digits2_bounds m1) as B1. pose proof (digits2_bounds m2) as B2.
  assert (forall ma ea mb eb,
             ea = Z.max (Z.pos (digits2_pos ma) + ea - 53) (-1074) ->
             eb = Z.max (Z.pos (digits2_pos mb) + eb - 53) (-1074) ->
             Z.pos ma * 2 ^ (ea + 1074) = Z.pos mb * 2 ^ (eb + 1074) ->
             ea < eb -> False) as Hlt.
  { intros ma ea mb eb Ha Hb Hab Hlt.
    pose proof (digits2_bounds ma) as Ba. pose proof (digits2_bounds mb) as Bb.
    assert (Z.pos (digits2_pos mb) = 53) as Hdb by (clear - Ha Hb Hlt; lia).
    assert (Z.pos (digits2_pos ma) <= 53) as Hda by (clear - Ha; lia).
    rewrite Hdb in Bb.
    replace (eb + 1074) with ((eb - ea) + (ea + 1074)) in Hab by lia.
    rewrite (Z.pow_add_r 2 (eb - ea) (ea + 1074)) in Hab by (clear - Ha Hlt; lia).
    assert (0 < 2 ^ (ea + 1074)) as Hpos by (apply Z.pow_pos_nonneg; lia).
    assert (Z.pos ma = Z.pos mb * 2 ^ (eb - ea)) as Hm by nia.
    assert (2 ^ 1 <= 2 ^ (eb - ea)) as Hk by (apply Z.pow_le_mono_r; lia).
    assert (Z.pos ma < 2 ^ 53) as Hsmall.
    { eapply Z.lt_le_trans; [apply Ba|]. apply Z.pow_le_mono_r; lia. }
    change (53 - 1) with 52 in Bb. change (2 ^ 1) with 2 in Hk.
    assert (2 ^ 53 = 2 * 2 ^ 52) as E53 by reflexivity.
    nia. }
  destruct (Z.lt_trichotomy e1 e2) as [Hc|[Hc|Hc]].
  - exfalso. exact (Hlt m1 e1 m2 e2 H1 H2 E Hc).
  - subst e2. split; [|reflexivity].
    assert (0 < 2 ^ (e1 + 1074)) as Hpos by (apply Z.pow_pos_nonneg; lia).
    assert (Z.pos m1 = Z.pos m2) as Hm by nia. now injection Hm.
  - exfalso. exact (Hlt m2 e2 m1 e1 H2 H1 (eq_sym E) Hc).
Qed.

Local Open Scope float_scope.

(** The exact value of a finite number that is not a zero is not zero. *)
Lemma exact_finite x s m e :
  Prim2SF x = S754_finite s m e ->
  exists v, (0 < v)%Z /\ v = (Z.pos m * 2 ^ (e + 1074))%Z
            /\ exact x = Some (if s then (- v)%Z else v).
Proof.
  intros H. unfold exact. rewrite H. eexists. split; [|split; reflexivity].
  pose proof (Prim2SF_valid x) as Hv. rewrite H in Hv. apply valid_finite in Hv.
  apply Z.mul_pos_pos; [lia|]. apply Z.pow_pos_nonneg; lia.
Qed.

(** [===] on finite numbers is the equality of their exact values. *)
Lemma eqb_exact x y a b :
  exact x = Some a -> exact y = Some b -> (x =? y) = (a =? b)%Z.
Proof.
  intros Hx Hy. rewrite eqb_spec. unfold SFeqb.
  pose proof (Prim2SF_valid x) as Vx. pose proof (Prim2SF_valid y) as Vy.
  destruct (Prim2SF x) as [sx|sx| |sx mx ex] eqn:Ex;
    destruct (Prim2SF y) as [sy|sy| |sy my ey] eqn:Ey;
    try (unfold exact in Hx, Hy; rewrite Ex in Hx; rewrite Ey in Hy; discriminate).
  - unfold exact in Hx, Hy. rewrite Ex in Hx. rewrite Ey in Hy.
    injection Hx as <-. injection Hy as <-. reflexivity.
  - destruct (exact_finite _ _ _ _ Ey) as (v & Hv & _ & Hy').
    unfold exact in Hx. rewrite Ex in Hx. injection Hx as <-.
    rewrite Hy in Hy'. injection Hy' as ->. cbn [SFcompare].
    symmetry. destruct sy; apply Z.eqb_neq; lia.
  - destruct (exact_finite _ _ _ _ Ex) as (v & Hv & _ & Hx').
    unfold exact in Hy. rewrite Ey in Hy. injection Hy as <-.
    rewrite Hx in Hx'. injection Hx' as ->. cbn [SFcompare].
    symmetry. destruct sx; apply Z.eqb_neq; lia.
  - destruct (exact_finite _ _ _ _ Ex) as (v & Hv & Ev & Hx').
    destruct (exact_finite _ _ _ _ Ey) as (w & Hw & Ew & Hy').
    rewrite Hx in Hx'. injection Hx' as ->. rewrite Hy in Hy'. injection Hy' as ->.
    destruct (Z.eqb_spec (if sx then (- v)%Z else v) (if sy then (- w)%Z else w)) as [E|E].
    + assert (sx = sy /\ v = w) as [<- <-] by (destruct sx, sy; split; (reflexivity || lia)).
      rewrite Ev in Ew.
      destruct (finite_value_inj _ _ _ _ _ _ Vx Vy Ew) as [<- <-].
      cbn [SFcompare]. rewrite Z.compare_refl, Pos.compare_cont_refl. now destruct sx.
    + cbn [SFcompare]. destruct sx, sy; try reflexivity.
      * destruct (Z.compare_spec ex ey) as [He|He|He]; try reflexivity.
        subst ey. rewrite Pos.compare_cont_spec. cbn [Pos.switch_Eq].
        destruct (Pos.compare_spec mx my) as [Hm|Hm|Hm]; try reflexivity.
        subst my. elim E. congruence.
      * destruct (Z.compare_spec ex ey) as [He|He|He]; try reflexivity.
        subst ey. rewrite Pos.compare_cont_spec. cbn [Pos.switch_Eq].
        destruct (Pos.compare_spec mx my) as [Hm|Hm|Hm]; try reflexivity.
        subst my. elim E. congruence.
Qed.

End ExactFacts.

(** ** Looking vehicles up *)

Lemma hasId_true vehicleId v : hasId vehicleId v = true <-> Vehicle.id v = vehicleId.
Proof. apply String.eqb_eq. Qed.

Lemma getVehicle_id st vehicleId v :
  getVehicle st vehicleId = Some v -> Vehicle.id v = vehicleId.
Proof. intros H. apply find_some in H as [_ H]. now apply hasId_true. Qed.

(** The vehicle that [find] reaches after the statements [f], which keep
    the id, were run on the one found for [vehicleId']. *)
Lemma find_withVehicle vehicleId vehicleId' f vs :
  (forall v, Vehicle.id (f v) = Vehicle.id v) ->
  find (hasId vehicleId) (withVehicle vehicleId' f vs) =
  if String.eqb vehicleId vehicleId'
  then option_map f (find (hasId vehicleId) vs)
  else find (hasId vehicleId) vs.
Proof.
  intros Hf. induction vs as [|v vs IH]; simpl.
  - now destruct (String.eqb vehicleId vehicleId').
  - destruct (hasId vehicleId' v) eqn:H'; simpl.
    + apply hasId_true in H'. unfold hasId at 1 3. rewrite Hf, H'.
      rewrite (String.eqb_sym vehicleId' vehicleId).
      destruct (String.eqb vehicleId vehicleId') eqn:E; [reflexivity|].
      unfold hasId. rewrite H', String.eqb_sym, E. reflexivity.
    + destruct (hasId vehicleId v) eqn:H.
      * apply hasId_true in H. destruct (String.eqb vehicleId vehicleId') eqn:E;
          [|reflexivity].
        apply String.eqb_eq in E. subst vehicleId'.
        apply hasId_true in H. congruence.
      * exact IH.
Qed.

Lemma withVehicle_none vehicleId f vs :
  find (hasId vehicleId) vs = None -> withVehicle vehicleId f vs = vs.
Proof.
  induction vs as [|v vs IH]; simpl; [reflexivity|].
  destruct (hasId vehicleId v); [discriminate|]. intros H. now rewrite IH.
Qed.

(** ** Recording fuel consumption *)


(** ** Updating a record *)

Lemma find_assign {A} (p : A -> bool) l i y :
  findIndex p l = Some i -> p y = true -> find p (assign i y l) = Some y.
Proof.
  revert i. induction l as [|a l IH]; intros i H Hy; simpl in *; [discriminate|].
  destruct (p a) eqn:Hp.
  - injection H as <-. simpl. now rewrite Hy.
  - destruct (findIndex p l) as [j|]; [|discriminate].
    injection H as <-. simpl. rewrite Hp. now apply IH.
Qed.


Lemma recalculate_id r : FuelRecord.id (recalculate r) = FuelRecord.id r.
Proof. unfold recalculate. now destruct (_ && _). Qed.

Lemma recalculate_vehicleId r :
  FuelRecord.vehicleId (recalculate r) = FuelRecord.vehicleId r.
Proof. unfold recalculate. now destruct (_ && _). Qed.

Lemma recalculate_distance r :
  FuelRecord.distance (recalculate r) = FuelRecord.distance r.
Proof. unfold recalculate. now destruct (_ && _). Qed.

Lemma recalculate_fuelAmount r :
  FuelRecord.fuelAmount (recalculate r) = FuelRecord.fuelAmount r.
Proof. unfold recalculate. now destruct (_ && _). Qed.

(** [updateRecord] on a record that is found, in terms of [find]. *)
Lemma updateRecord_found st recordId updates oldRecord :
  find (recordHasId recordId) (fuelRecords st) = Some oldRecord ->
  exists recordIndex,
    findIndex (recordHasId recordId) (fuelRecords st) = Some recordIndex
    /\ nth_error (fuelRecords st) recordIndex = Some oldRecord
    /\ updateRecord st recordId updates =
       (let record := recalculate (patch oldRecord updates) in
        ({| fuelRecords := assign recordIndex record (fuelRecords st);
            vehicles :=
              withVehicle (FuelRecord.vehicleId record)
                (fun v =>
                   {| Vehicle.id := Vehicle.id v;
                      Vehicle.name := Vehicle.name v;
                      Vehicle.fuelType := Vehicle.fuelType v;
                      Vehicle.createdAt := Vehicle.createdAt v;
                      Vehicle.totalDistance :=
                        (Vehicle.totalDistance v - FuelRecord.distance oldRecord
                         + FuelRecord.distance record)%float;
                      Vehicle.totalFuelConsumed :=
                        (Vehicle.totalFuelConsumed v - FuelRecord.fuelAmount oldRecord
                         + FuelRecord.fuelAmount record)%float |})
                (vehicles st) |},
         inr record)).
Proof.
  intros H. destruct (find_findIndex _ _ _ H) as (i & Hi & Hn).
  exists i. unfold updateRecord. now rewrite Hi, Hn.
Qed.

Lemma updateRecord_missing st recordId updates :
  find (recordHasId recordId) (fuelRecords st) = None ->
  updateRecord st recordId updates =
  (st, inl (NotFoundError ("Record with ID " ++ recordId ++ " not found"))).
Proof.
  intros H. apply findIndex_None in H. unfold updateRecord. now rewrite H.
Qed.


(** ** Deleting a vehicle *)

Lemma splice1_findIndex {A} (p : A -> bool) l i :
  findIndex p l = Some i ->
  exists before x after,
    l = before ++ x :: after /\ find p l = Some x
    /\ Forall (fun y => p y = false) before
    /\ splice1 i l = before ++ after.
Proof.
  revert i. induction l as [|a l IH]; intros i H; simpl in *; [discriminate|].
  destruct (p a) eqn:Hp.
  - injection H as <-. exists [], a, l. simpl. auto.
  - destruct (findIndex p l) as [j|]; [|discriminate].
    injection H as <-. destruct (IH j eq_refl) as (b & x & c & -> & Hf & Hb & Hs).
    exists (a :: b), x, c. simpl. rewrite Hs. auto.
Qed.

Lemma filter_none {A} (p q : A -> bool) l :
  (forall x, q x = true -> p x = false) -> filter p (filter q l) = [].
Proof.
  intros H. induction l as [|a l IH]; simpl; [reflexivity|].
  destruct (q a) eqn:Hq; simpl; [|exact IH].
  now rewrite (H a Hq).
Qed.

(** C4.  [deleteVehicle] throws the not-found error and leaves the store as
    it was when no vehicle has the id.  Otherwise it returns [true]; the
    records left are those of the other vehicle ids, in their order; the
    vehicle found is removed from the vehicles; and [getVehicleRecords] of
    the id is then empty. *)
Theorem deleteVehicle_spec st vehicleId :
  match getVehicle st vehicleId with
  | None =>
      deleteVehicle st vehicleId
      = (st, inl (NotFoundError ("Vehicle with ID " ++ vehicleId ++ " not found")))
  | Some v =>
      exists st' before after,
        deleteVehicle st vehicleId = (st', inr true)
        /\ fuelRecords st'
           = filter (fun r => negb (String.eqb (FuelRecord.vehicleId r) vehicleId))
               (fuelRecords st)
        /\ (forall r, In r (fuelRecords st') <->
                      In r (fuelRecords st) /\ FuelRecord.vehicleId r <> vehicleId)
        /\ vehicles st = before ++ v :: after
        /\ vehicles st' = before ++ after
        /\ getVehicleRecords st' vehicleId = []
  end.
Proof.
  unfold getVehicle, deleteVehicle.
  destruct (findIndex (hasId vehicleId) (vehicles st)) as [i|] eqn:Hi.
  - destruct (splice1_findIndex _ _ _ Hi) as (b & x & c & Hl & Hf & _ & Hs).
    rewrite Hf. eexists _, b, c. split; [reflexivity|]. simpl.
    split; [reflexivity|]. split; [|split; [exact Hl|split; [exact Hs|]]].
    + intros r. rewrite filter_In. unfold ofVehicle.
      rewrite negb_true_iff, String.eqb_neq. reflexivity.
    + unfold getVehicleRecords. simpl. apply filter_none.
      intros r. now rewrite negb_true_iff.
  - apply findIndex_None in Hi. now rewrite Hi.
Qed.

(** ** A zero fuel amount *)

(** C7.  For a vehicle that exists and a fuel amount that is a zero,
    [recordFuelConsumption] does not throw: it returns a record whose
    consumption is [NaN] or an infinity, and that record is stored as the
    last of the records. *)
Theorem recordFuelConsumption_zero_fuel
    st genId nowDate nowCreated vehicleId fuelAmount distance date notes v :
  getVehicle st vehicleId = Some v ->
  is_zero fuelAmount = true ->
  exists st' record,
    recordFuelConsumption st genId nowDate nowCreated vehicleId
      fuelAmount distance date notes = (st', inr record)
    /\ is_finite (FuelRecord.consumption record) = false
    /\ fuelRecords st' = fuelRecords st ++ [record].
Proof.
  intros Hv Hz. unfold recordFuelConsumption. rewrite Hv.
  eexists _, _. split; [reflexivity|]. simpl.
  split; [|reflexivity]. now apply NumberFacts.round2_div_zero.
Qed.

Lemma recordFuelConsumption_zero_fuel_witness :
  let st := fst (addVehicle constructor "2024-01-01T00:00:00.000Z" "v1" "Car A" None) in
  exists st' record,
    recordFuelConsumption st "r1" "2024-01-02T00:00:00.000Z" "2024-01-02T00:00:00.000Z"
      "v1" 0 150 None "" = (st', inr record)
    /\ is_finite (FuelRecord.consumption record) = false
    /\ fuelRecords st' = fuelRecords st ++ [record].
Proof.
  exact (recordFuelConsumption_zero_fuel
           (fst (addVehicle constructor "2024-01-01T00:00:00.000Z" "v1" "Car A" None))
           "r1" "2024-01-02T00:00:00.000Z" "2024-01-02T00:00:00.000Z"
           "v1" 0%float 150%float None ""
           (snd (addVehicle constructor "2024-01-01T00:00:00.000Z" "v1" "Car A" None))
           eq_refl eq_refl).
Defined.

(** ** The average consumption *)

(** C8, as the code has it.  [getAverageConsumption] is one of three cases:
    the vehicle has no record and the result is 0; or the total fuel is
    above zero and the result is total distance over total fuel, rounded to
    two decimals; or the total fuel is a zero, below zero or [NaN], and the
    result is 0. *)
Theorem getAverageConsumption_spec st vehicleId :
  let records := getVehicleRecords st vehicleId in
  let totalKm := reduceSum FuelRecord.distance records in
  let totalLiters := reduceSum FuelRecord.fuelAmount records in
  (records = [] /\ getAverageConsumption st vehicleId = 0%float)
  \/ (records <> [] /\ (0 <? totalLiters)%float = true
      /\ getAverageConsumption st vehicleId = round2 (totalKm / totalLiters))
  \/ (records <> []
      /\ (is_zero totalLiters = true \/ (totalLiters <? 0)%float = true
          \/ is_nan totalLiters = true)
      /\ getAverageConsumption st vehicleId = 0%float).
Proof.
  intros records totalKm totalLiters. unfold getAverageConsumption.
  fold records. fold totalKm. fold totalLiters.
  destruct records as [|r rs] eqn:E; [left; now split|right]. simpl List.length.
  cbn [Nat.eqb].
  destruct (0 <? totalLiters)%float eqn:Hpos.
  - left. repeat split. discriminate.
  - right. repeat split; [discriminate|]. now apply NumberFacts.positive_cases.
Qed.

(** C8 as stated fails: with a single record of fuel amount -5 and distance
    100 the total fuel is not zero and the rounded quotient is -20, yet
    [getAverageConsumption] returns 0. *)
Lemma getAverageConsumption_negative_fuel :
  let st1 := fst (addVehicle constructor "2024-01-01T00:00:00.000Z" "v1" "Car A" None) in
  let st2 := fst (recordFuelConsumption st1 "r1" "2024-01-02T00:00:00.000Z"
                    "2024-01-02T00:00:00.000Z" "v1" (-5) 100 None "") in
  getAverageConsumption st2 "v1" = 0%float
  /\ specifiedAverage st2 "v1" = (-20)%float
  /\ is_zero (reduceSum FuelRecord.fuelAmount (getVehicleRecords st2 "v1")) = false.
Proof. vm_compute. repeat split. Qed.

(** ** Import and export *)

(** C6 as stated fails, in both directions.  The text [42] is well-formed
    JSON that is not a snapshot, and [importData] returns it without
    throwing, the store being left as it was.  The text [null] is
    well-formed JSON as well, and [importData] throws on it. *)
Lemma importData_accepts_non_snapshot :
  isSnapshot (Document (JNumber 42)) = false
  /\ importData constructor (Document (JNumber 42)) = Returned constructor (JNumber 42)
  /\ importData constructor (Document JNull)
     = Threw (ImportError "Invalid JSON format for import").
Proof. repeat split. Qed.

(** C6, as the code has it.  [importData] throws, always the same error,
    exactly when the text is not well-formed JSON or is [null].  When it
    returns, it returns the parsed value; the vehicles are the array under
    [vehicles] when that key holds a truthy value and are untouched when the
    key is absent or holds a falsy value, and likewise for the records under
    [records].  So the snapshot [{"vehicles": []}] empties the vehicles and
    leaves the records, and [{"records": []}] does the converse. *)
Theorem importData_spec :
  (forall st jsonData,
      (exists e, importData st jsonData = Threw e)
      <-> (jsonData = Malformed \/ jsonData = Document JNull))
  /\ (forall st jsonData,
        match importData st jsonData with
        | Threw e => e = ImportError "Invalid JSON format for import"
        | Returned st' data =>
            jsonData = Document data
            /\ match member data "vehicles" with
               | Some value =>
                   if truthy value
                   then asArrayOf asVehicle value = Some (vehicles st')
                   else vehicles st' = vehicles st
               | None => vehicles st' = vehicles st
               end
            /\ match member data "records" with
               | Some value =>
                   if truthy value
                   then asArrayOf asFuelRecord value = Some (fuelRecords st')
                   else fuelRecords st' = fuelRecords st
               | None => fuelRecords st' = fuelRecords st
               end
        | Untyped data =>
            jsonData = Document data
            /\ ((exists value,
                    member data "vehicles" = Some value /\ truthy value = true
                    /\ asArrayOf asVehicle value = None)
                \/ (exists value,
                      member data "records" = Some value /\ truthy value = true
                      /\ asArrayOf asFuelRecord value = None))
        end)
  /\ (forall st,
        importData st (Document (JObject [("vehicles", JArray [])]))
        = Returned {| fuelRecords := fuelRecords st; vehicles := [] |}
            (JObject [("vehicles", JArray [])])
        /\ importData st (Document (JObject [("records", JArray [])]))
           = Returned {| fuelRecords := []; vehicles := vehicles st |}
               (JObject [("records", JArray [])])).
Proof.
  split; [|split].
  - intros st jsonData. split.
    + intros [e H]. destruct jsonData as [|data]; [now left|right].
      destruct data; try reflexivity; unfold importData in H;
        (destruct (replaceWith asVehicle _ _ _);
         [destruct (replaceWith asFuelRecord _ _ _)|]); discriminate.
    + intros [->| ->]; eexists; reflexivity.
  - intros st [|data]; [reflexivity|].
    assert (forall A (view : JSON -> option A) key current,
               match replaceWith view data key current with
               | Some l =>
                   match member data key with
                   | Some value =>
                       if truthy value then asArrayOf view value = Some l
                       else l = current
                   | None => l = current
                   end
               | None =>
                   exists value,
                     member data key = Some value /\ truthy value = true
                     /\ asArrayOf view value = None
               end) as Hreplace.
    { intros A view key current. unfold replaceWith.
      destruct (member data key) as [value|]; [|reflexivity].
      destruct (truthy value) eqn:Ht; [|reflexivity].
      destruct (asArrayOf view value) eqn:Hview; eauto. }
    pose proof (Hreplace _ asVehicle "vehicles" (vehicles st)) as Hv.
    pose proof (Hreplace _ asFuelRecord "records" (fuelRecords st)) as Hr.
    destruct data; try reflexivity; unfold importData;
      (destruct (replaceWith asVehicle _ _ _) as [vs|];
       [destruct (replaceWith asFuelRecord _ _ _) as [rs|]|]);
      (split; [reflexivity|]);
      first [split; assumption|right; exact Hr|left; exact Hv].
  - intros st. split; reflexivity.
Qed.

Lemma plain_numberToJSON x : plain x = true -> numberToJSON x = JNumber x.
Proof.
  unfold plain, numberToJSON. intros H. apply andb_true_iff in H as [-> H].
  destruct (is_zero x) eqn:Hz; [|reflexivity].
  apply NumberFacts.is_zero_spec in Hz as [s Hz]. f_equal.
  destruct s.
  - assert (x = neg_zero) as -> by (apply Prim2SF_inj; exact Hz). discriminate.
  - symmetry. apply Prim2SF_inj. exact Hz.
Qed.

Lemma asVehicle_vehicleToJSON v :
  plainVehicle v = true -> asVehicle (vehicleToJSON v) = Some v.
Proof.
  unfold plainVehicle, vehicleToJSON. intros H. apply andb_true_iff in H as [Hd Hf].
  rewrite (plain_numberToJSON _ Hd), (plain_numberToJSON _ Hf).
  now destruct v.
Qed.

Lemma asFuelRecord_recordToJSON r :
  plainRecord r = true -> asFuelRecord (recordToJSON r) = Some r.
Proof.
  unfold plainRecord, recordToJSON. intros H.
  apply andb_true_iff in H as [H Hc]. apply andb_true_iff in H as [Hf Hd].
  rewrite (plain_numberToJSON _ Hf), (plain_numberToJSON _ Hd),
    (plain_numberToJSON _ Hc).
  now destruct r.
Qed.

Lemma allOf_map {A} (view : JSON -> option A) (toJSON : A -> JSON) (ok : A -> bool) l :
  (forall a, ok a = true -> view (toJSON a) = Some a) ->
  forallb ok l = true -> allOf view (map toJSON l) = Some l.
Proof.
  intros Hview. induction l as [|a l IH]; simpl; [reflexivity|].
  intros H. apply andb_true_iff in H as [Ha Hl].
  now rewrite (Hview a Ha), (IH Hl).
Qed.

(** C5 as stated fails.  After [addVehicle("v1", "Car A")] and
    [recordFuelConsumption("v1", 0, 150)] the consumption of the record is
    the infinity; [exportData] writes it as [null], and [importData] of that
    text does not give the store back. *)
Lemma exportData_loses_infinity :
  let st1 := fst (addVehicle constructor "2024-01-01T00:00:00.000Z" "v1" "Car A" None) in
  let st2 := fst (recordFuelConsumption st1 "r1" "2024-01-02T00:00:00.000Z"
                    "2024-01-02T00:00:00.000Z" "v1" 0 150 None "") in
  map FuelRecord.consumption (fuelRecords st2) = [infinity]
  /\ exportData st2 "2024-01-03T00:00:00.000Z"
     = Document
         (JObject
            [ ("vehicles",
               JArray
                 [ JObject
                     [ ("id", JString "v1"); ("name", JString "Car A");
                       ("fuelType", JString "petrol");
                       ("createdAt", JString "2024-01-01T00:00:00.000Z");
                       ("totalDistance", JNumber 150);
                       ("totalFuelConsumed", JNumber 0) ] ]);
              ("records",
               JArray
                 [ JObject
                     [ ("id", JString "r1"); ("vehicleId", JString "v1");
                       ("fuelAmount", JNumber 0); ("distance", JNumber 150);
                       ("consumption", JNull);
                       ("date", JString "2024-01-02T00:00:00.000Z");
                       ("notes", JString "");
                       ("createdAt", JString "2024-01-02T00:00:00.000Z") ] ]);
              ("exportedAt", JString "2024-01-03T00:00:00.000Z") ])
  /\ (exists data,
        importData st2 (exportData st2 "2024-01-03T00:00:00.000Z") = Untyped data).
Proof.
  vm_compute. split; [reflexivity|]. split; [reflexivity|]. eexists. reflexivity.
Qed.

(** C5, for plain numbers.  When every number of the store is finite and
    none is the negative zero, [importData] of the text of [exportData]
    gives back, from any store, the same vehicles and the same records in
    the same order, field by field. *)
Theorem importData_exportData st st0 now :
  plainStore st = true ->
  exists data,
    exportData st now = Document data
    /\ importData st0 (exportData st now) = Returned st data.
Proof.
  unfold plainStore. intros H. apply andb_true_iff in H as [Hv Hr].
  eexists. split; [reflexivity|].
  unfold exportData, importData, replaceWith. simpl.
  rewrite (allOf_map asVehicle vehicleToJSON plainVehicle _ asVehicle_vehicleToJSON Hv).
  rewrite (allOf_map asFuelRecord recordToJSON plainRecord _ asFuelRecord_recordToJSON Hr).
  now destruct st.
Qed.

Lemma importData_exportData_witness :
  let st1 := fst (addVehicle constructor "2024-01-01T00:00:00.000Z" "v1" "Car A" None) in
  let st2 := fst (recordFuelConsumption st1 "r1" "2024-01-02T00:00:00.000Z"
                    "2024-01-02T00:00:00.000Z" "v1" 10 150 None "") in
  plainStore st2 = true
  /\ exists data,
       exportData st2 "2024-01-03T00:00:00.000Z" = Document data
       /\ importData constructor (exportData st2 "2024-01-03T00:00:00.000Z")
          = Returned st2 data.
Proof.
  split; [reflexivity|].
  exact (importData_exportData
           (fst (recordFuelConsumption
                   (fst (addVehicle constructor "2024-01-01T00:00:00.000Z" "v1" "Car A" None))
                   "r1" "2024-01-02T00:00:00.000Z" "2024-01-02T00:00:00.000Z"
                   "v1" 10%float 150%float None ""))
           constructor "2024-01-03T00:00:00.000Z" eq_refl).
Defined.

(** ** Exact sums *)

Lemma exactSum_app l x :
  exactSum (l ++ [x]) =
  match exactSum l, exact x with
  | Some s, Some a => Some (s + a)%Z
  | _, _ => None
  end.
Proof.
  induction l as [|y l IH]; simpl.
  - destruct (exact x); [f_equal; lia|reflexivity].
  - rewrite IH. destruct (exact y), (exactSum l), (exact x); try reflexivity.
    f_equal; lia.
Qed.

(** Replacing or removing one summand. *)
Lemma exactSum_middle l1 x l2 s :
  exactSum (l1 ++ x :: l2) = Some s ->
  exists a,
    exact x = Some a
    /\ exactSum (l1 ++ l2) = Some (s - a)%Z
    /\ forall y b, exact y = Some b -> exactSum (l1 ++ y :: l2) = Some (s - a + b)%Z.
Proof.
  revert s. induction l1 as [|z l1 IH]; simpl; intros s H.
  - destruct (exact x) as [a|]; [|discriminate].
    destruct (exactSum l2) as [t|]; [|discriminate].
    injection H as <-. exists a. split; [reflexivity|]. split; [f_equal; lia|].
    intros y b ->. f_equal; lia.
  - destruct (exact z) as [c|]; [|discriminate].
    destruct (exactSum (l1 ++ x :: l2)) as [t|]; [|discriminate].
    injection H as <-. destruct (IH t eq_refl) as (a & Ha & Hrm & Hrp).
    exists a. split; [exact Ha|]. rewrite Hrm. split; [f_equal; lia|].
    intros y b Hy. rewrite (Hrp y b Hy). f_equal; lia.
Qed.

Lemma filter_assign_in {A} (p : A -> bool) l i x y :
  nth_error l i = Some x -> p x = true -> p y = true ->
  exists l1 l2,
    filter p l = l1 ++ x :: l2 /\ filter p (assign i y l) = l1 ++ y :: l2.
Proof.
  revert i. induction l as [|a l IH]; intros [|i] H Hx Hy; simpl in *; try discriminate.
  - injection H as ->. rewrite Hx, Hy. now exists [], (filter p l).
  - destruct (IH i H Hx Hy) as (l1 & l2 & E1 & E2). rewrite E1, E2.
    destruct (p a); [now exists (a :: l1), l2|now exists l1, l2].
Qed.

Lemma filter_splice1_in {A} (p : A -> bool) l i x :
  nth_error l i = Some x -> p x = true ->
  exists l1 l2,
    filter p l = l1 ++ x :: l2 /\ filter p (splice1 i l) = l1 ++ l2.
Proof.
  revert i. induction l as [|a l IH]; intros [|i] H Hx; simpl in *; try discriminate.
  - injection H as ->. rewrite Hx. now exists [], (filter p l).
  - destruct (IH i H Hx) as (l1 & l2 & E1 & E2). rewrite E1, E2.
    destruct (p a); [now exists (a :: l1), l2|now exists l1, l2].
Qed.

Lemma exact_add_spec a b :
  exact_add a b = true ->
  exists x y, exact a = Some x /\ exact b = Some y /\ exact (a + b) = Some (x + y)%Z.
Proof.
  unfold exact_add.
  destruct (exact a) as [x|], (exact b) as [y|], (exact (a + b)) as [z|];
    try discriminate.
  intros H. apply Z.eqb_eq in H. subst z. eauto.
Qed.

Lemma exact_sub_spec a b :
  exact_sub a b = true ->
  exists x y, exact a = Some x /\ exact b = Some y /\ exact (a - b) = Some (x - y)%Z.
Proof.
  unfold exact_sub.
  destruct (exact a) as [x|], (exact b) as [y|], (exact (a - b)) as [z|];
    try discriminate.
  intros H. apply Z.eqb_eq in H. subst z. eauto.
Qed.

(** The sum of a field over the records of a vehicle, after one record of
    that vehicle was replaced or removed. *)
Lemma isSumOf_replace (field : FuelRecord.t -> float) vehicleId l i old new total total' :
  nth_error l i = Some old ->
  ofVehicle vehicleId old = true -> ofVehicle vehicleId new = true ->
  isSumOf total (map field (filter (ofVehicle vehicleId) l)) ->
  exact_sub total (field old) = true ->
  exact_add (total - field old) (field new) = true ->
  total' = (total - field old + field new)%float ->
  isSumOf total' (map field (filter (ofVehicle vehicleId) (assign i new l))).
Proof.
  intros Hn Ho Hnew (z & Ht & Hs) Hsub Hadd ->.
  destruct (filter_assign_in _ _ _ _ _ Hn Ho Hnew) as (l1 & l2 & E1 & E2).
  rewrite E1 in Hs. rewrite E2. rewrite map_app in *. simpl in *.
  destruct (exactSum_middle _ _ _ _ Hs) as (a & Ha & _ & Hrp).
  destruct (exact_sub_spec _ _ Hsub) as (x & y & Hx & Hy & Hxy).
  destruct (exact_add_spec _ _ Hadd) as (u & b & Hu & Hb & Hub).
  exists (z - a + b)%Z. split; [|now apply Hrp].
  rewrite Hub. f_equal. congruence.
Qed.

Lemma isSumOf_remove (field : FuelRecord.t -> float) vehicleId l i old total :
  nth_error l i = Some old ->
  ofVehicle vehicleId old = true ->
  isSumOf total (map field (filter (ofVehicle vehicleId) l)) ->
  exact_sub total (field old) = true ->
  isSumOf (total - field old) (map field (filter (ofVehicle vehicleId) (splice1 i l))).
Proof.
  intros Hn Ho (z & Ht & Hs) Hsub.
  destruct (filter_splice1_in _ _ _ _ Hn Ho) as (l1 & l2 & E1 & E2).
  rewrite E1 in Hs. rewrite E2. rewrite map_app in *. simpl in *.
  destruct (exactSum_middle _ _ _ _ Hs) as (a & Ha & Hrm & _).
  destruct (exact_sub_spec _ _ Hsub) as (x & y & Hx & Hy & Hxy).
  exists (z - a)%Z. split; [|exact Hrm].
  rewrite Hxy. f_equal. congruence.
Qed.

Lemma isSumOf_append (field : FuelRecord.t -> float) vehicleId l new total :
  ofVehicle vehicleId new = true ->
  isSumOf total (map field (filter (ofVehicle vehicleId) l)) ->
  exact_add total (field new) = true ->
  isSumOf (total + field new) (map field (filter (ofVehicle vehicleId) (l ++ [new]))).
Proof.
  intros Hnew (z & Ht & Hs) Hadd.
  rewrite filter_app. simpl. rewrite Hnew, map_app. simpl.
  destruct (exact_add_spec _ _ Hadd) as (x & y & Hx & Hy & Hxy).
  exists (z + y)%Z. rewrite exactSum_app, Hs, Hy. split; [|reflexivity].
  rewrite Hxy. f_equal. congruence.
Qed.

(** ** Deleting a record *)

Lemma deleteRecord_found st recordId record :
  find (recordHasId recordId) (fuelRecords st) = Some record ->
  exists recordIndex,
    findIndex (recordHasId recordId) (fuelRecords st) = Some recordIndex
    /\ nth_error (fuelRecords st) recordIndex = Some record
    /\ deleteRecord st recordId =
       ({| fuelRecords := splice1 recordIndex (fuelRecords st);
           vehicles :=
             withVehicle (FuelRecord.vehicleId record)
               (fun v => subTotals v (FuelRecord.distance record)
                                     (FuelRecord.fuelAmount record))
               (vehicles st) |},
        inr true).
Proof.
  intros H. destruct (find_findIndex _ _ _ H) as (i & Hi & Hn).
  exists i. unfold deleteRecord. now rewrite Hi, Hn.
Qed.

Lemma deleteRecord_missing st recordId :
  find (recordHasId recordId) (fuelRecords st) = None ->
  deleteRecord st recordId =
  (st, inl (NotFoundError ("Record with ID " ++ recordId ++ " not found"))).
Proof.
  intros H. apply findIndex_None in H. unfold deleteRecord. now rewrite H.
Qed.

(** ** The aggregate invariant *)

Lemma ofVehicle_other vehicleId vehicleId' r :
  FuelRecord.vehicleId r = vehicleId -> String.eqb vehicleId' vehicleId = false ->
  ofVehicle vehicleId' r = false.
Proof.
  intros <- H. unfold ofVehicle. now rewrite String.eqb_sym.
Qed.

Lemma ofVehicle_same vehicleId r :
  FuelRecord.vehicleId r = vehicleId -> ofVehicle vehicleId r = true.
Proof. intros <-. apply String.eqb_refl. Qed.

Lemma consistent_frame st st' v :
  getVehicleRecords st' (Vehicle.id v) = getVehicleRecords st (Vehicle.id v) ->
  consistent st v -> consistent st' v.
Proof. unfold consistent. now intros ->. Qed.

(** One call keeps the invariant when its arithmetic is exact. *)
Lemma step_foundConsistent st op :
  foundConsistent st -> exactStep st op = true -> foundConsistent (step st op).
Proof.
  intros Hinv Hex vehicleId' v' Hv'.
  pose proof (getVehicle_id _ _ _ Hv') as Hid'.
  destruct op as [genId nowDate nowCreated vehicleId fuelAmount distance date notes
                 |recordId updates|recordId]; cbn [step exactStep] in *.
  - (* recordFuelConsumption *)
    unfold recordFuelConsumption in *.
    destruct (getVehicle st vehicleId) as [v|] eqn:Hv; [|exact (Hinv _ _ Hv')].
    cbn [fst ret] in *.
    unfold getVehicle in Hv'. cbn [vehicles] in Hv'.
    rewrite find_withVehicle in Hv' by reflexivity.
    apply andb_true_iff in Hex as [Hd Hf].
    pose proof (getVehicle_id _ _ _ Hv) as Hid.
    destruct (String.eqb vehicleId' vehicleId) eqn:E.
    + apply String.eqb_eq in E. subst vehicleId'.
      fold (getVehicle st vehicleId) in Hv'. rewrite Hv in Hv'.
      injection Hv' as <-. destruct (Hinv _ _ Hv) as [HD HF].
      unfold consistent, getVehicleRecords in *. simpl. rewrite Hid in *.
      match goal with
      | |- context [fuelRecords st ++ [?r]] =>
          split;
          [apply (isSumOf_append FuelRecord.distance vehicleId (fuelRecords st) r)
          |apply (isSumOf_append FuelRecord.fuelAmount vehicleId (fuelRecords st) r)];
          solve [assumption | apply String.eqb_refl]
      end.
    + apply (consistent_frame st); [|exact (Hinv _ _ Hv')].
      unfold getVehicleRecords. simpl.
      rewrite filter_app. simpl. rewrite Hid'.
      rewrite (ofVehicle_other vehicleId) by (reflexivity || assumption).
      apply app_nil_r.
  - (* updateRecord *)
    destruct (find (recordHasId recordId) (fuelRecords st)) as [old|] eqn:Hold.
    2: { rewrite updateRecord_missing in * by assumption. exact (Hinv _ _ Hv'). }
    destruct (updateRecord_found st recordId updates old Hold) as (i & Hi & Hn & Hupd).
    rewrite Hupd in *. cbv zeta in *. cbn [fst] in *.
    unfold getVehicle in Hv'. cbn [vehicles] in Hv'.
    rewrite find_withVehicle in Hv' by reflexivity.
    assert (FuelRecord.vehicleId (recalculate (patch old updates))
            = FuelRecord.vehicleId old) as Hsame
      by (rewrite recalculate_vehicleId; reflexivity).
    rewrite Hsame in *.
    destruct (String.eqb vehicleId' (FuelRecord.vehicleId old)) eqn:E.
    + apply String.eqb_eq in E. subst vehicleId'.
      fold (getVehicle st (FuelRecord.vehicleId old)) in Hv'.
      destruct (getVehicle st (FuelRecord.vehicleId old)) as [v|] eqn:Hv;
        [|discriminate].
      injection Hv' as <-. destruct (Hinv _ _ Hv) as [HD HF].
      pose proof (getVehicle_id _ _ _ Hv) as Hid.
      apply andb_true_iff in Hex as [Hex H4]. apply andb_true_iff in Hex as [Hex H3].
      apply andb_true_iff in Hex as [H1 H2].
      unfold consistent, getVehicleRecords in *. simpl. rewrite Hid in *. split.
      * eapply (isSumOf_replace FuelRecord.distance); eauto using ofVehicle_same.
      * eapply (isSumOf_replace FuelRecord.fuelAmount); eauto using ofVehicle_same.
    + apply (consistent_frame st); [|exact (Hinv _ _ Hv')].
      unfold getVehicleRecords. simpl. rewrite Hid'.
      apply (filter_assign _ _ _ old); [exact Hn| |].
      * now apply (ofVehicle_other (FuelRecord.vehicleId old)).
      * now apply (ofVehicle_other (FuelRecord.vehicleId old)).
  - (* deleteRecord *)
    destruct (find (recordHasId recordId) (fuelRecords st)) as [old|] eqn:Hold.
    2: { rewrite deleteRecord_missing in * by assumption. exact (Hinv _ _ Hv'). }
    destruct (deleteRecord_found st recordId old Hold) as (i & Hi & Hn & Hdel).
    rewrite Hdel in *. cbn [fst] in *.
    unfold getVehicle in Hv'. cbn [vehicles] in Hv'.
    rewrite find_withVehicle in Hv' by reflexivity.
    destruct (String.eqb vehicleId' (FuelRecord.vehicleId old)) eqn:E.
    + apply String.eqb_eq in E. subst vehicleId'.
      fold (getVehicle st (FuelRecord.vehicleId old)) in Hv'.
      destruct (getVehicle st (FuelRecord.vehicleId old)) as [v|] eqn:Hv;
        [|discriminate].
      injection Hv' as <-. destruct (Hinv _ _ Hv) as [HD HF].
      pose proof (getVehicle_id _ _ _ Hv) as Hid.
      apply andb_true_iff in Hex as [H1 H2].
      unfold consistent, getVehicleRecords in *. simpl. rewrite Hid in *. split.
      * apply (isSumOf_remove FuelRecord.distance); auto using ofVehicle_same.
      * apply (isSumOf_remove FuelRecord.fuelAmount); auto using ofVehicle_same.
    + apply (consistent_frame st); [|exact (Hinv _ _ Hv')].
      unfold getVehicleRecords. simpl. rewrite Hid'.
      apply (filter_splice1 _ _ _ old); [exact Hn|].
      now apply (ofVehicle_other (FuelRecord.vehicleId old)).
Qed.

Lemma run_foundConsistent ops : forall st,
  foundConsistent st -> exactRun st ops = true -> foundConsistent (run st ops).
Proof.
  induction ops as [|op ops IH]; intros st Hinv Hex; simpl in *; [exact Hinv|].
  apply andb_true_iff in Hex as [Hop Hops].
  apply IH; [|exact Hops]. now apply step_foundConsistent.
Qed.

Lemma allConsistent_found st : allConsistent st -> foundConsistent st.
Proof.
  intros H vehicleId v Hv. apply H. unfold getVehicle in Hv.
  now apply find_some in Hv.
Qed.

Lemma find_NoDup vs v :
  NoDup (map Vehicle.id vs) -> In v vs -> find (hasId (Vehicle.id v)) vs = Some v.
Proof.
  induction vs as [|a vs IH]; simpl; intros Hnd Hin; [contradiction|].
  inversion Hnd as [|x l Hnotin Hnd']; subst. destruct Hin as [->|Hin].
  - unfold hasId. now rewrite String.eqb_refl.
  - destruct (hasId (Vehicle.id v) a) eqn:E; [|now apply IH].
    apply hasId_true in E. elim Hnotin. rewrite E. now apply in_map.
Qed.

Lemma ids_withVehicle vehicleId f vs :
  (forall v, Vehicle.id (f v) = Vehicle.id v) ->
  map Vehicle.id (withVehicle vehicleId f vs) = map Vehicle.id vs.
Proof.
  intros Hf. induction vs as [|a vs IH]; simpl; [reflexivity|].
  destruct (hasId vehicleId a); simpl; [now rewrite Hf|now rewrite IH].
Qed.

Lemma ids_step st op :
  map Vehicle.id (vehicles (step st op)) = map Vehicle.id (vehicles st).
Proof.
  destruct op as [genId nowDate nowCreated vehicleId fuelAmount distance date notes
                 |recordId updates|recordId]; cbn [step].
  - unfold recordFuelConsumption. destruct (getVehicle st vehicleId); [|reflexivity].
    now apply ids_withVehicle.
  - unfold updateRecord. destruct (findIndex _ _) as [i|]; [|reflexivity].
    destruct (nth_error _ _); [|reflexivity]. now apply ids_withVehicle.
  - unfold deleteRecord. destruct (findIndex _ _) as [i|]; [|reflexivity].
    destruct (nth_error _ _); [|reflexivity]. now apply ids_withVehicle.
Qed.

Lemma ids_run ops : forall st,
  map Vehicle.id (vehicles (run st ops)) = map Vehicle.id (vehicles st).
Proof.
  induction ops as [|op ops IH]; intros st; [reflexivity|].
  change (run st (op :: ops)) with (run (step st op) ops).
  now rewrite IH, ids_step.
Qed.

(** C1 as stated fails.  [addVehicle] does not check the id: after two
    vehicles were added under the id v1, both with totals 0 and no record,
    [recordFuelConsumption("v1", 10, 150)] adds to the totals of the first
    one only.  The second vehicle then has a total distance of 0, while the
    one record with its id has distance 150. *)
Lemma duplicate_id_breaks_aggregates :
  let st1 := fst (addVehicle constructor "2024-01-01T00:00:00.000Z" "v1" "Car A" None) in
  let st2 := fst (addVehicle st1 "2024-01-01T00:00:01.000Z" "v1" "Car B" None) in
  let ops := [RecordFuelConsumption "r1" "2024-01-02T00:00:00.000Z"
                "2024-01-02T00:00:00.000Z" "v1" 10 150 None ""] in
  allConsistent st2
  /\ exactRun st2 ops = true
  /\ exists v,
       nth_error (vehicles (run st2 ops)) 1 = Some v
       /\ Vehicle.id v = "v1"
       /\ Vehicle.totalDistance v = 0%float
       /\ map FuelRecord.distance (getVehicleRecords (run st2 ops) "v1") = [150%float]
       /\ ~ consistent (run st2 ops) v.
Proof.
  cbv zeta. split; [|split].
  - intros v [<-|[<-|[]]]; split; exists 0%Z; split; reflexivity.
  - reflexivity.
  - eexists. split; [reflexivity|]. repeat split.
    intros [(z & Hz & Hs) _]. vm_compute in Hz, Hs. congruence.
Qed.

(** Rounding alone breaks the invariant as well: after distances 0.1 and
    0.2 were recorded for a vehicle and the first record was deleted, the
    total distance is 0.1 + 0.2 - 0.1, which is not the 0.2 of the one
    record left. *)
Lemma rounding_breaks_aggregates :
  let st1 := fst (addVehicle constructor "2024-01-01T00:00:00.000Z" "v1" "Car A" None) in
  let ops :=
    [ RecordFuelConsumption "r1" "2024-01-02T00:00:00.000Z"
        "2024-01-02T00:00:00.000Z" "v1" 10 (1 / 10) None "";
      RecordFuelConsumption "r2" "2024-01-03T00:00:00.000Z"
        "2024-01-03T00:00:00.000Z" "v1" 10 (2 / 10) None "";
      DeleteRecord "r1" ] in
  map Vehicle.totalDistance (vehicles (run st1 ops))
  = [(1 / 10 + 2 / 10 - 1 / 10)%float]
  /\ map FuelRecord.distance (getVehicleRecords (run st1 ops) "v1") = [(2 / 10)%float]
  /\ (1 / 10 + 2 / 10 - 1 / 10 =? 2 / 10)%float = false.
Proof. vm_compute. repeat split. Qed.

(** C1, for exact arithmetic.  From a store in which the totals of every
    vehicle are the sums over its records, any sequence of
    [recordFuelConsumption], [updateRecord] and [deleteRecord] calls whose
    additions and subtractions on the totals round nothing leads to a store
    in which the totals of every vehicle that [find] reaches by its id are
    the sums over its records; these are all the vehicles when no two of
    them share an id. *)
Theorem aggregates_preserved st ops :
  allConsistent st ->
  exactRun st ops = true ->
  foundConsistent (run st ops)
  /\ (NoDup (map Vehicle.id (vehicles st)) -> allConsistent (run st ops)).
Proof.
  intros Hinv Hex.
  assert (foundConsistent (run st ops)) as Hfound
    by (apply run_foundConsistent; [now apply allConsistent_found|exact Hex]).
  split; [exact Hfound|].
  intros Hnd v Hin. apply (Hfound (Vehicle.id v)).
  apply find_NoDup; [|exact Hin]. now rewrite ids_run.
Qed.

Lemma allConsistent_addVehicle now vehicleId name fuelType :
  allConsistent (fst (addVehicle constructor now vehicleId name fuelType)).
Proof.
  intros v [<-|[]]. split; exists 0%Z; split; reflexivity.
Qed.

Lemma aggregates_preserved_witness :
  let st1 := fst (addVehicle constructor "2024-01-01T00:00:00.000Z" "v1" "Car A" None) in
  let ops :=
    [ RecordFuelConsumption "r1" "2024-01-02T00:00:00.000Z"
        "2024-01-02T00:00:00.000Z" "v1" 10 150 None "";
      RecordFuelConsumption "r2" "2024-01-03T00:00:00.000Z"
        "2024-01-03T00:00:00.000Z" "v1" 12 180 None "";
      UpdateRecord "r1"
        {| Updates.fuelAmount := None; Updates.distance := Some 200%float;
           Updates.date := None; Updates.notes := None |};
      DeleteRecord "r2" ] in
  exactRun st1 ops = true
  /\ foundConsistent (run st1 ops)
  /\ (NoDup (map Vehicle.id (vehicles st1)) -> allConsistent (run st1 ops)).
Proof.
  split; [reflexivity|].
  exact (aggregates_preserved
           (fst (addVehicle constructor "2024-01-01T00:00:00.000Z" "v1" "Car A" None))
           [ RecordFuelConsumption "r1" "2024-01-02T00:00:00.000Z"
               "2024-01-02T00:00:00.000Z" "v1" 10 150 None "";
             RecordFuelConsumption "r2" "2024-01-03T00:00:00.000Z"
               "2024-01-03T00:00:00.000Z" "v1" 12 180 None "";
             UpdateRecord "r1"
               {| Updates.fuelAmount := None; Updates.distance := Some 200%float;
                  Updates.date := None; Updates.notes := None |};
             DeleteRecord "r2" ]
           (allConsistent_addVehicle "2024-01-01T00:00:00.000Z" "v1" "Car A" None)
           eq_refl).
Defined.

(** ** The empty patch *)

Lemma assign_same {A} (l : list A) i x : nth_error l i = Some x -> assign i x l = l.
Proof.
  revert i. induction l as [|a l IH]; intros [|i] H; simpl in *; try discriminate.
  - now injection H as ->.
  - now rewrite IH.
Qed.


Lemma recalculate_upToDate r : upToDate (recalculate r).
Proof.
  unfold upToDate, recalculate.
  destruct ((0 <? FuelRecord.distance r) && (0 <? FuelRecord.fuelAmount r))%float eqn:E;
    simpl; [reflexivity|]. rewrite E. discriminate.
Qed.


Lemma parseFloat_positive x : (0 <? parseFloat x)%float = true -> parseFloat x = x.
Proof.
  unfold parseFloat. destruct (is_zero x); [discriminate|reflexivity].
Qed.

(** Records made by [recordFuelConsumption] and records returned by
    [updateRecord] are up to date. *)
Lemma recordFuelConsumption_upToDate
    st genId nowDate nowCreated vehicleId fuelAmount distance date notes st' record :
  recordFuelConsumption st genId nowDate nowCreated vehicleId
    fuelAmount distance date notes = (st', inr record) ->
  upToDate record.
Proof.
  unfold recordFuelConsumption. destruct (getVehicle st vehicleId); [|discriminate].
  intros H. injection H as _ <-. unfold upToDate. simpl. intros H.
  apply andb_true_iff in H as [Hd Hf].
  now rewrite (parseFloat_positive _ Hd), (parseFloat_positive _ Hf).
Qed.

Lemma updateRecord_upToDate st recordId updates st' record :
  updateRecord st recordId updates = (st', inr record) -> upToDate record.
Proof.
  unfold updateRecord. destruct (findIndex _ _); [|discriminate].
  destruct (nth_error _ _); [|discriminate].
  intros H. injection H as _ <-. apply recalculate_upToDate.
Qed.


(** The consumption changes as well when the record is not up to date, as a
    record of an imported snapshot may be: distance 150, fuel amount 10 and
    consumption 99 become consumption 15. *)
Lemma empty_patch_recomputes_consumption :
  let snapshot :=
    Document
      (JObject
         [ ("records",
            JArray
              [ JObject
                  [ ("id", JString "r1"); ("vehicleId", JString "v1");
                    ("fuelAmount", JNumber 10); ("distance", JNumber 150);
                    ("consumption", JNumber 99);
                    ("date", JString "2024-01-02T00:00:00.000Z");
                    ("notes", JString "");
                    ("createdAt", JString "2024-01-02T00:00:00.000Z") ] ]) ]) in
  exists st data record,
    importData constructor snapshot = Returned st data
    /\ map FuelRecord.consumption (fuelRecords st) = [99%float]
    /\ snd (updateRecord st "r1" Updates.empty) = inr record
    /\ FuelRecord.consumption record = 15%float.
Proof.
  eexists _, _, _. split; [reflexivity|]. split; [reflexivity|].
  split; [reflexivity|]. vm_compute. reflexivity.
Qed.



(** ** A patch that is not a number *)

Lemma withVehicle_keeps (P : Vehicle.t -> Prop) vehicleId vehicleId' f vs v :
  (forall u, Vehicle.id (f u) = Vehicle.id u) ->
  (forall u, P u -> P (f u)) ->
  find (hasId vehicleId) vs = Some v -> P v ->
  exists v', find (hasId vehicleId) (withVehicle vehicleId' f vs) = Some v' /\ P v'.
Proof.
  intros Hid HP Hv Pv. rewrite find_withVehicle by exact Hid. rewrite Hv.
  destruct (String.eqb vehicleId vehicleId'); simpl; eauto.
Qed.

(** A total that is [NaN] stays [NaN] through every call. *)
Lemma step_keeps_NaN (total : Vehicle.t -> float) st op vehicleId v :
  total = Vehicle.totalDistance \/ total = Vehicle.totalFuelConsumed ->
  getVehicle st vehicleId = Some v -> total v = nan ->
  exists v', getVehicle (step st op) vehicleId = Some v' /\ total v' = nan.
Proof.
  intros Htotal Hv Hnan.
  destruct op as [genId nowDate nowCreated vehicleId' fuelAmount distance date notes
                 |recordId updates|recordId]; cbn [step].
  - unfold recordFuelConsumption.
    destruct (getVehicle st vehicleId'); [|now exists v].
    unfold getVehicle. cbn [fst ret vehicles].
    apply (withVehicle_keeps (fun u => total u = nan) _ _ _ _ v); auto.
    intros u Hu. destruct Htotal as [->| ->]; simpl; rewrite Hu;
      apply NumberFacts.add_nan_l.
  - unfold updateRecord. destruct (findIndex _ _); [|now exists v].
    destruct (nth_error _ _); [|now exists v].
    unfold getVehicle. cbn [fst ret vehicles].
    apply (withVehicle_keeps (fun u => total u = nan) _ _ _ _ v); auto.
    intros u Hu. destruct Htotal as [->| ->]; simpl; rewrite Hu;
      now rewrite NumberFacts.sub_nan_l, NumberFacts.add_nan_l.
  - unfold deleteRecord. destruct (findIndex _ _); [|now exists v].
    destruct (nth_error _ _); [|now exists v].
    unfold getVehicle. cbn [fst ret vehicles].
    apply (withVehicle_keeps (fun u => total u = nan) _ _ _ _ v); auto.
    intros u Hu. destruct Htotal as [->| ->]; simpl; rewrite Hu;
      apply NumberFacts.sub_nan_l.
Qed.

Lemma run_keeps_NaN (total : Vehicle.t -> float) ops : forall st vehicleId v,
  total = Vehicle.totalDistance \/ total = Vehicle.totalFuelConsumed ->
  getVehicle st vehicleId = Some v -> total v = nan ->
  exists v', getVehicle (run st ops) vehicleId = Some v' /\ total v' = nan.
Proof.
  induction ops as [|op ops IH]; intros st vehicleId v Htotal Hv Hnan.
  - now exists v.
  - destruct (step_keeps_NaN total st op vehicleId v Htotal Hv Hnan) as (v1 & Hv1 & Hnan1).
    exact (IH (step st op) vehicleId v1 Htotal Hv1 Hnan1).
Qed.

(** The totals of the vehicle of a record after [updateRecord]. *)
Lemma updateRecord_totals st recordId updates old v :
  find (recordHasId recordId) (fuelRecords st) = Some old ->
  getVehicle st (FuelRecord.vehicleId old) = Some v ->
  exists st' record v',
    updateRecord st recordId updates = (st', inr record)
    /\ record = recalculate (patch old updates)
    /\ find (recordHasId recordId) (fuelRecords st') = Some record
    /\ getVehicle st' (FuelRecord.vehicleId old) = Some v'
    /\ Vehicle.totalDistance v'
       = (Vehicle.totalDistance v - FuelRecord.distance old
          + FuelRecord.distance record)%float
    /\ Vehicle.totalFuelConsumed v'
       = (Vehicle.totalFuelConsumed v - FuelRecord.fuelAmount old
          + FuelRecord.fuelAmount record)%float.
Proof.
  intros Hold Hv.
  destruct (updateRecord_found st recordId updates old Hold) as (i & Hi & Hn & ->).
  cbv zeta. eexists _, _, _. split; [reflexivity|]. split; [reflexivity|].
  cbn [fuelRecords]. split.
  { apply find_assign; [exact Hi|].
    unfold recordHasId. rewrite recalculate_id. simpl.
    apply find_some in Hold. apply Hold. }
  unfold getVehicle in *. cbn [vehicles].
  rewrite find_withVehicle by reflexivity.
  rewrite recalculate_vehicleId. simpl FuelRecord.vehicleId.
  rewrite String.eqb_refl, Hv. simpl. repeat split.
Qed.

(** C10.  Let [updateRecord] be called for a record that exists and whose
    vehicle exists.  It does not throw.  When [updates.fuelAmount] is a
    value that [parseFloat] turns into [NaN], the stored record has [NaN]
    as its fuel amount, and the total fuel of the vehicle is [NaN] after the
    call and after every further sequence of [recordFuelConsumption],
    [updateRecord] and [deleteRecord] calls.  The same holds for
    [updates.distance] and the total distance. *)
Theorem updateRecord_NaN st recordId updates old v :
  find (recordHasId recordId) (fuelRecords st) = Some old ->
  getVehicle st (FuelRecord.vehicleId old) = Some v ->
  exists st' record,
    updateRecord st recordId updates = (st', inr record)
    /\ find (recordHasId recordId) (fuelRecords st') = Some record
    /\ (forall x,
          Updates.fuelAmount updates = Some x -> is_nan (parseFloat x) = true ->
          FuelRecord.fuelAmount record = nan
          /\ forall ops, exists v',
               getVehicle (run st' ops) (FuelRecord.vehicleId old) = Some v'
               /\ Vehicle.totalFuelConsumed v' = nan)
    /\ (forall x,
          Updates.distance updates = Some x -> is_nan (parseFloat x) = true ->
          FuelRecord.distance record = nan
          /\ forall ops, exists v',
               getVehicle (run st' ops) (FuelRecord.vehicleId old) = Some v'
               /\ Vehicle.totalDistance v' = nan).
Proof.
  intros Hold Hv.
  destruct (updateRecord_totals st recordId updates old v Hold Hv)
    as (st' & record & v' & Hupd & -> & Hrec & Hv' & Hd & Hf).
  exists st', (recalculate (patch old updates)).
  split; [exact Hupd|]. split; [exact Hrec|].
  rewrite recalculate_fuelAmount, recalculate_distance in *. simpl in Hd, Hf |- *.
  split; intros x Hx Hnan; apply NumberFacts.is_nan_spec in Hnan;
    rewrite Hx in *; rewrite Hnan in *; (split; [reflexivity|]); intros ops.
  - apply (run_keeps_NaN Vehicle.totalFuelConsumed ops st' _ v'); auto.
    rewrite Hf. apply NumberFacts.add_nan_r.
  - apply (run_keeps_NaN Vehicle.totalDistance ops st' _ v'); auto.
    rewrite Hd. apply NumberFacts.add_nan_r.
Qed.

Lemma updateRecord_NaN_witness :
  let st1 := fst (addVehicle constructor "2024-01-01T00:00:00.000Z" "v1" "Car A" None) in
  let st2 := fst (recordFuelConsumption st1 "r1" "2024-01-02T00:00:00.000Z"
                    "2024-01-02T00:00:00.000Z" "v1" 10 150 None "") in
  let updates :=
    {| Updates.fuelAmount := Some nan; Updates.distance := None;
       Updates.date := None; Updates.notes := None |} in
  let later :=
    [ UpdateRecord "r1"
        {| Updates.fuelAmount := Some 10%float; Updates.distance := None;
           Updates.date := None; Updates.notes := None |};
      DeleteRecord "r1" ] in
  exists st' record v',
    updateRecord st2 "r1" updates = (st', inr record)
    /\ FuelRecord.fuelAmount record = nan
    /\ fuelRecords (run st' later) = []
    /\ getVehicle (run st' later) "v1" = Some v'
    /\ Vehicle.totalFuelConsumed v' = nan.
Proof.
  cbv zeta.
  destruct (updateRecord_NaN
              (fst (recordFuelConsumption
                      (fst (addVehicle constructor "2024-01-01T00:00:00.000Z"
                              "v1" "Car A" None))
                      "r1" "2024-01-02T00:00:00.000Z" "2024-01-02T00:00:00.000Z"
                      "v1" 10%float 150%float None ""))
              "r1"
              {| Updates.fuelAmount := Some nan; Updates.distance := None;
                 Updates.date := None; Updates.notes := None |}
              (FuelRecord.mk "r1" "v1" 10 150 15 "2024-01-02T00:00:00.000Z" ""
                 "2024-01-02T00:00:00.000Z")
              (Vehicle.mk "v1" "Car A" "petrol" "2024-01-01T00:00:00.000Z" 150 10)
              eq_refl eq_refl)
    as (st' & record & Hupd & _ & Hfuel & _).
  destruct (Hfuel nan eq_refl eq_refl) as (Hnan & Hlater).
  destruct (Hlater
              [ UpdateRecord "r1"
                  {| Updates.fuelAmount := Some 10%float; Updates.distance := None;
                     Updates.date := None; Updates.notes := None |};
                DeleteRecord "r1" ])
    as (v' & Hv' & Htotal).
  exists st', record, v'. repeat split; try assumption.
  vm_compute in Hupd. injection Hupd as <- _. reflexivity.
Defined.

(** * Further properties *)

(** ** The order of numbers *)

Module OrderFacts.

Local Open Scope Z_scope.

Lemma valid_exponent s m e :
  valid_binary (S754_finite s m e) = true -> e <= 971.
Proof.
  unfold valid_binary, bounded. change prec with 53. change emax with 1024.
  intros H. apply andb_true_iff in H as [_ H]. apply Z.leb_le in H. lia.
Qed.

(** Of two valid finite numbers, the one with the smaller exponent has the
    smaller magnitude. *)
Lemma finite_lt s1 m1 e1 s2 m2 e2 :
  valid_binary (S754_finite s1 m1 e1) = true ->
  valid_binary (S754_finite s2 m2 e2) = true ->
  e1 < e2 ->
  Z.pos m1 * 2 ^ (e1 + 1074) < Z.pos m2 * 2 ^ (e2 + 1074).
Proof.
  intros H1 H2 Hlt. apply ExactFacts.valid_finite in H1, H2.
  pose proof (ExactFacts.digits2_bounds m1) as B1.
  pose proof (ExactFacts.digits2_bounds m2) as B2.
  assert (Z.pos (digits2_pos m2) = 53) as Hd2 by (clear - H1 H2 Hlt; lia).
  assert (Z.pos (digits2_pos m1) <= 53) as Hd1 by (clear - H1; lia).
  assert (-1074 <= e1) as He1 by (clear - H1; lia).
  rewrite Hd2 in B2. change (53 - 1) with 52 in B2.
  assert (Z.pos m1 < 2 ^ 53) as Hsmall.
  { eapply Z.lt_le_trans; [apply B1|]. apply Z.pow_le_mono_r; lia. }
  replace (e2 + 1074) with ((e2 - e1) + (e1 + 1074)) by lia.
  rewrite (Z.pow_add_r 2 (e2 - e1) (e1 + 1074)) by lia.
  assert (0 < 2 ^ (e1 + 1074)) as Hpos by (apply Z.pow_pos_nonneg; lia).
  assert (2 ^ 1 <= 2 ^ (e2 - e1)) as Hk by (apply Z.pow_le_mono_r; lia).
  change (2 ^ 1) with 2 in Hk.
  assert (2 ^ 53 = 2 * 2 ^ 52) as E53 by reflexivity.
  assert (Z.pos m1 < Z.pos m2 * 2 ^ (e2 - e1)) as Hm.
  { revert Hsmall B2 Hk E53.
    generalize (2 ^ 53) (2 ^ 52) (2 ^ (e2 - e1)) (Z.pos m1) (Z.pos m2). clear. nia. }
  rewrite Z.mul_assoc. apply Z.mul_lt_mono_pos_r; assumption.
Qed.

(** A valid finite number is below the place given to the infinity. *)
Lemma finite_bound s m e :
  valid_binary (S754_finite s m e) = true ->
  0 < Z.pos m * 2 ^ (e + 1074) < 2 ^ 2100.
Proof.
  intros H. pose proof (valid_exponent _ _ _ H) as He.
  apply ExactFacts.valid_finite in H.
  pose proof (ExactFacts.digits2_bounds m) as B.
  assert (Z.pos (digits2_pos m) <= 53) as Hd by (clear - H; lia).
  assert (-1074 <= e) as He1 by (clear - H; lia).
  assert (Z.pos m < 2 ^ 53) as Hsmall.
  { eapply Z.lt_le_trans; [apply B|]. apply Z.pow_le_mono_r; lia. }
  assert (0 < 2 ^ (e + 1074)) as Hpos by (apply Z.pow_pos_nonneg; lia).
  assert (2 ^ (e + 1074) <= 2 ^ 2045) as Hle by (apply Z.pow_le_mono_r; lia).
  assert (2 ^ 2100 = 2 ^ 53 * (2 ^ 2045 * 4)) as E by reflexivity.
  split; [lia|]. rewrite E.
  assert (0 < Z.pos m) as Hm by lia.
  revert Hsmall Hpos Hle Hm. generalize (2 ^ 53) (2 ^ 2045) (2 ^ (e + 1074)) (Z.pos m).
  clear. intros a b c d Ha Hc Hb Hd.
  assert (d * c <= d * b) by (apply Z.mul_le_mono_nonneg_l; lia).
  assert (d * b < a * b) by (apply Z.mul_lt_mono_pos_r; lia).
  lia.
Qed.


Local Open Scope float_scope.

Lemma position_finite x s m e :
  Prim2SF x = S754_finite s m e ->
  exists v, (0 < v < 2 ^ 2100)%Z /\ v = (Z.pos m * 2 ^ (e + 1074))%Z
            /\ position x = Some (if s then (- v)%Z else v).
Proof.
  intros H. unfold position. rewrite H. eexists. split; [|split; reflexivity].
  pose proof (Prim2SF_valid x) as Hv. rewrite H in Hv.
  now apply finite_bound in Hv.
Qed.

Lemma position_None x : position x = None <-> x = nan.
Proof.
  unfold position. split.
  - intros H. apply Prim2SF_inj. change (Prim2SF nan) with S754_nan.
    destruct (Prim2SF x); (discriminate || reflexivity).
  - intros ->. reflexivity.
Qed.

(** The comparison of two numbers is the comparison of their places. *)
Lemma compare_position x y a b :
  position x = Some a -> position y = Some b ->
  SFcompare (Prim2SF x) (Prim2SF y) = Some (a ?= b)%Z.
Proof.
  intros Hx Hy.
  pose proof (Prim2SF_valid x) as Vx. pose proof (Prim2SF_valid y) as Vy.
  assert (0 < 2 ^ 2100)%Z as Hinf by (apply Z.pow_pos_nonneg; lia).
  destruct (Prim2SF x) as [sx|sx| |sx mx ex] eqn:Ex;
    destruct (Prim2SF y) as [sy|sy| |sy my ey] eqn:Ey;
    try (unfold position in Hx, Hy; rewrite Ex in Hx; rewrite Ey in Hy; discriminate).
  - unfold position in Hx, Hy. rewrite Ex in Hx. rewrite Ey in Hy.
    injection Hx as <-. injection Hy as <-. reflexivity.
  - unfold position in Hx, Hy. rewrite Ex in Hx. rewrite Ey in Hy.
    injection Hx as <-. injection Hy as <-. cbn [SFcompare]. f_equal. symmetry.
    destruct sy; [apply Z.compare_gt_iff|apply Z.compare_lt_iff]; lia.
  - destruct (position_finite _ _ _ _ Ey) as (w & Hw & _ & Hy').
    unfold position in Hx. rewrite Ex in Hx. injection Hx as <-.
    rewrite Hy in Hy'. injection Hy' as ->. cbn [SFcompare]. f_equal. symmetry.
    destruct sy; [apply Z.compare_gt_iff|apply Z.compare_lt_iff]; lia.
  - unfold position in Hx, Hy. rewrite Ex in Hx. rewrite Ey in Hy.
    injection Hx as <-. injection Hy as <-. cbn [SFcompare]. f_equal. symmetry.
    destruct sx; [apply Z.compare_lt_iff|apply Z.compare_gt_iff]; lia.
  - unfold position in Hx, Hy. rewrite Ex in Hx. rewrite Ey in Hy.
    injection Hx as <-. injection Hy as <-. cbn [SFcompare]. f_equal. symmetry.
    destruct sx, sy;
      [apply Z.compare_refl|apply Z.compare_lt_iff; lia
      |apply Z.compare_gt_iff; lia|apply Z.compare_refl].
  - destruct (position_finite _ _ _ _ Ey) as (w & Hw & _ & Hy').
    unfold position in Hx. rewrite Ex in Hx. injection Hx as <-.
    rewrite Hy in Hy'. injection Hy' as ->. cbn [SFcompare]. f_equal. symmetry.
    destruct sx, sy;
      [apply Z.compare_lt_iff|apply Z.compare_lt_iff
      |apply Z.compare_gt_iff|apply Z.compare_gt_iff]; lia.
  - destruct (position_finite _ _ _ _ Ex) as (v & Hv & _ & Hx').
    unfold position in Hy. rewrite Ey in Hy. injection Hy as <-.
    rewrite Hx in Hx'. injection Hx' as ->. cbn [SFcompare]. f_equal. symmetry.
    destruct sx; [apply Z.compare_lt_iff|apply Z.compare_gt_iff]; lia.
  - destruct (position_finite _ _ _ _ Ex) as (v & Hv & _ & Hx').
    unfold position in Hy. rewrite Ey in Hy. injection Hy as <-.
    rewrite Hx in Hx'. injection Hx' as ->. cbn [SFcompare]. f_equal. symmetry.
    destruct sx, sy;
      [apply Z.compare_gt_iff|apply Z.compare_lt_iff
      |apply Z.compare_gt_iff|apply Z.compare_lt_iff]; lia.
  - destruct (position_finite _ _ _ _ Ex) as (v & Hv & Ev & Hx').
    destruct (position_finite _ _ _ _ Ey) as (w & Hw & Ew & Hy').
    rewrite Hx in Hx'. injection Hx' as ->. rewrite Hy in Hy'. injection Hy' as ->.
    cbn [SFcompare]. f_equal.
    assert ((ex ?= ey)%Z = Lt -> v < w)%Z as HLt.
    { intros H. apply Z.compare_lt_iff in H. subst v w.
      exact (finite_lt _ _ _ _ _ _ Vx Vy H). }
    assert ((ex ?= ey)%Z = Gt -> w < v)%Z as HGt.
    { intros H. apply Z.compare_gt_iff in H. subst v w.
      exact (finite_lt _ _ _ _ _ _ Vy Vx H). }
    assert ((ex ?= ey)%Z = Eq -> (Z.pos mx ?= Z.pos my)%Z = (v ?= w)%Z) as HEq.
    { intros H. apply Z.compare_eq in H. subst ey v w.
      assert (0 < 2 ^ (ex + 1074))%Z as Hp.
      { apply ExactFacts.valid_finite in Vx. apply Z.pow_pos_nonneg; lia. }
      apply Zmult_compare_compat_r. lia. }
    rewrite Pos.compare_cont_spec. cbn [Pos.switch_Eq].
    change (mx ?= my)%positive with (Z.pos mx ?= Z.pos my)%Z.
    destruct sx, sy.
    + rewrite Z.compare_opp.
      destruct (ex ?= ey)%Z eqn:E.
      * rewrite (HEq eq_refl). rewrite (Z.compare_antisym v w).
        now destruct (v ?= w)%Z.
      * symmetry. apply Z.compare_gt_iff. apply HLt. reflexivity.
      * symmetry. apply Z.compare_lt_iff. apply HGt. reflexivity.
    + symmetry. apply Z.compare_lt_iff. lia.
    + symmetry. apply Z.compare_gt_iff. lia.
    + destruct (ex ?= ey)%Z eqn:E.
      * rewrite (HEq eq_refl). now destruct (v ?= w)%Z.
      * symmetry. apply Z.compare_lt_iff. apply HLt. reflexivity.
      * symmetry. apply Z.compare_gt_iff. apply HGt. reflexivity.
Qed.

Lemma ltb_position x y a b :
  position x = Some a -> position y = Some b -> (x <? y) = (a <? b)%Z.
Proof.
  intros Hx Hy. rewrite ltb_spec. unfold SFltb, Z.ltb.
  rewrite (compare_position _ _ _ _ Hx Hy). now destruct (a ?= b)%Z.
Qed.

Lemma leb_position x y a b :
  position x = Some a -> position y = Some b -> (x <=? y) = (a <=? b)%Z.
Proof.
  intros Hx Hy. rewrite leb_spec. unfold SFleb, Z.leb.
  rewrite (compare_position _ _ _ _ Hx Hy). now destruct (a ?= b)%Z.
Qed.

(** No comparison with [NaN] holds. *)
Lemma leb_nan_l x : (nan <=? x) = false.
Proof. rewrite leb_spec. reflexivity. Qed.

Lemma leb_nan_r x : (x <=? nan) = false.
Proof.
  rewrite leb_spec. change (Prim2SF nan) with S754_nan.
  unfold SFleb. now destruct (Prim2SF x).
Qed.

Lemma position_Some x : is_nan x = false -> exists a, position x = Some a.
Proof.
  intros H. destruct (position x) as [a|] eqn:E; [eauto|].
  apply position_None in E. subst x. discriminate.
Qed.

End OrderFacts.

(** ** The least and the greatest number *)

Module MinMaxFacts.

Import OrderFacts.
Local Open Scope float_scope.

Lemma leb_true x y :
  (x <=? y) = true ->
  exists a b, position x = Some a /\ position y = Some b /\ (a <= b)%Z.
Proof.
  intros H. destruct (position x) as [a|] eqn:Ex.
  2: { apply position_None in Ex. subst x. now rewrite leb_nan_l in H. }
  destruct (position y) as [b|] eqn:Ey.
  2: { apply position_None in Ey. subst y. now rewrite leb_nan_r in H. }
  exists a, b. rewrite (leb_position _ _ _ _ Ex Ey) in H.
  apply Z.leb_le in H. auto.
Qed.

Lemma leb_trans x y z : (x <=? y) = true -> (y <=? z) = true -> (x <=? z) = true.
Proof.
  intros H1 H2.
  destruct (leb_true _ _ H1) as (a & b & Ha & Hb & Hab).
  destruct (leb_true _ _ H2) as (b' & c & Hb' & Hc & Hbc).
  rewrite (leb_position _ _ _ _ Ha Hc). apply Z.leb_le.
  assert (b' = b) by congruence. lia.
Qed.

Lemma leb_refl x : is_nan x = false -> (x <=? x) = true.
Proof.
  intros H. destruct (position_Some _ H) as [a Ha].
  rewrite (leb_position _ _ _ _ Ha Ha). apply Z.leb_refl.
Qed.

Lemma ltb_leb x y : (x <? y) = true -> (x <=? y) = true.
Proof.
  rewrite ltb_spec, leb_spec. unfold SFltb, SFleb.
  now destruct (SFcompare (Prim2SF x) (Prim2SF y)) as [[]|].
Qed.

Lemma not_ltb_leb x y :
  is_nan x = false -> is_nan y = false -> (x <? y) = false -> (y <=? x) = true.
Proof.
  intros Hx Hy H.
  destruct (position_Some _ Hx) as [a Ha]. destruct (position_Some _ Hy) as [b Hb].
  rewrite (ltb_position _ _ _ _ Ha Hb) in H. rewrite (leb_position _ _ _ _ Hb Ha).
  apply Z.ltb_ge in H. now apply Z.leb_le.
Qed.

Lemma leibniz_eqb x y : PrimFloat.Leibniz.eqb x y = true -> x = y.
Proof. apply FloatAxioms.Leibniz.eqb_spec. Qed.

(** The infinity is the only number at its place, and so is the negative
    infinity. *)
Lemma position_infinity x : position x = Some (2 ^ 2100)%Z -> x = infinity.
Proof.
  intros H. apply Prim2SF_inj. change (Prim2SF infinity) with (S754_infinity false).
  assert (0 < 2 ^ 2100)%Z as Hinf by (apply Z.pow_pos_nonneg; lia).
  destruct (Prim2SF x) as [s|s| |s m e] eqn:E.
  - unfold position in H. rewrite E in H. injection H as H. lia.
  - unfold position in H. rewrite E in H. injection H as H. destruct s; [lia|reflexivity].
  - unfold position in H. rewrite E in H. discriminate.
  - destruct (position_finite _ _ _ _ E) as (v & Hv & _ & Hp).
    rewrite H in Hp. injection Hp as Hp. destruct s; lia.
Qed.

Lemma position_neg_infinity x : position x = Some (- 2 ^ 2100)%Z -> x = neg_infinity.
Proof.
  intros H. apply Prim2SF_inj.
  change (Prim2SF neg_infinity) with (S754_infinity true).
  assert (0 < 2 ^ 2100)%Z as Hinf by (apply Z.pow_pos_nonneg; lia).
  destruct (Prim2SF x) as [s|s| |s m e] eqn:E.
  - unfold position in H. rewrite E in H. injection H as H. lia.
  - unfold position in H. rewrite E in H. injection H as H. destruct s; [reflexivity|lia].
  - unfold position in H. rewrite E in H. discriminate.
  - destruct (position_finite _ _ _ _ E) as (v & Hv & _ & Hp).
    rewrite H in Hp. injection Hp as Hp. destruct s; lia.
Qed.

Lemma leb_infinity x : (infinity <=? x) = true -> x = infinity.
Proof.
  intros H. destruct (leb_true _ _ H) as (a & b & Ha & Hb & Hab).
  change (position infinity) with (Some (2 ^ 2100)%Z) in Ha. injection Ha as <-.
  apply position_infinity. rewrite Hb. f_equal.
  assert (0 < 2 ^ 2100)%Z as Hinf by (apply Z.pow_pos_nonneg; lia).
  destruct (Prim2SF x) as [s|s| |s m e] eqn:E.
  - unfold position in Hb. rewrite E in Hb. injection Hb as <-. lia.
  - unfold position in Hb. rewrite E in Hb. injection Hb as <-. destruct s; [lia|reflexivity].
  - unfold position in Hb. rewrite E in Hb. discriminate.
  - destruct (position_finite _ _ _ _ E) as (v & Hv & _ & Hp).
    rewrite Hb in Hp. injection Hp as ->. destruct s; lia.
Qed.

Lemma leb_neg_infinity x : (x <=? neg_infinity) = true -> x = neg_infinity.
Proof.
  intros H. destruct (leb_true _ _ H) as (a & b & Ha & Hb & Hab).
  change (position neg_infinity) with (Some (- 2 ^ 2100)%Z) in Hb. injection Hb as <-.
  apply position_neg_infinity. rewrite Ha. f_equal.
  assert (0 < 2 ^ 2100)%Z as Hinf by (apply Z.pow_pos_nonneg; lia).
  destruct (Prim2SF x) as [s|s| |s m e] eqn:E.
  - unfold position in Ha. rewrite E in Ha. injection Ha as <-. lia.
  - unfold position in Ha. rewrite E in Ha. injection Ha as <-. destruct s; [reflexivity|lia].
  - unfold position in Ha. rewrite E in Ha. discriminate.
  - destruct (position_finite _ _ _ _ E) as (v & Hv & _ & Hp).
    rewrite Ha in Hp. injection Hp as ->. destruct s; lia.
Qed.

(** The loop of [Math.min] on numbers: the result is the start or one of
    the values, and it is at most the start and every value. *)
Lemma minLoop_spec values : forall lowest,
  is_nan lowest = false ->
  Forall (fun x => is_nan x = false) values ->
  (minLoop lowest values = lowest \/ In (minLoop lowest values) values)
  /\ (minLoop lowest values <=? lowest) = true
  /\ Forall (fun x => (minLoop lowest values <=? x) = true) values.
Proof.
  induction values as [|x rest IH]; intros lowest Hl Hv; cbn [minLoop].
  - split; [now left|]. split; [now apply leb_refl|constructor].
  - inversion Hv as [|? ? Hx Hrest]; subst. rewrite Hx.
    destruct (PrimFloat.Leibniz.eqb x neg_zero && PrimFloat.Leibniz.eqb lowest zero)
      eqn:Ez.
    + apply andb_true_iff in Ez as [E1 E2].
      apply leibniz_eqb in E1, E2. subst x lowest.
      destruct (IH neg_zero eq_refl Hrest) as (Hin & Hle & Hall).
      split; [right; destruct Hin as [->|Hin]; [now left|now right]|].
      split; [apply (leb_trans _ neg_zero _ Hle); reflexivity|].
      constructor; assumption.
    + destruct (x <? lowest) eqn:Elt.
      * destruct (IH x Hx Hrest) as (Hin & Hle & Hall).
        split; [right; destruct Hin as [->|Hin]; [now left|now right]|].
        split; [exact (leb_trans _ _ _ Hle (ltb_leb _ _ Elt))|].
        constructor; assumption.
      * destruct (IH lowest Hl Hrest) as (Hin & Hle & Hall).
        split; [destruct Hin as [->|Hin]; [now left|right; now right]|].
        split; [exact Hle|]. constructor; [|exact Hall].
        exact (leb_trans _ _ _ Hle (not_ltb_leb _ _ Hx Hl Elt)).
Qed.

Lemma maxLoop_spec values : forall highest,
  is_nan highest = false ->
  Forall (fun x => is_nan x = false) values ->
  (maxLoop highest values = highest \/ In (maxLoop highest values) values)
  /\ (highest <=? maxLoop highest values) = true
  /\ Forall (fun x => (x <=? maxLoop highest values) = true) values.
Proof.
  induction values as [|x rest IH]; intros highest Hh Hv; cbn [maxLoop].
  - split; [now left|]. split; [now apply leb_refl|constructor].
  - inversion Hv as [|? ? Hx Hrest]; subst. rewrite Hx.
    destruct (PrimFloat.Leibniz.eqb x zero && PrimFloat.Leibniz.eqb highest neg_zero)
      eqn:Ez.
    + apply andb_true_iff in Ez as [E1 E2].
      apply leibniz_eqb in E1, E2. subst x highest.
      destruct (IH zero eq_refl Hrest) as (Hin & Hle & Hall).
      split; [right; destruct Hin as [->|Hin]; [now left|now right]|].
      split; [apply (leb_trans _ zero _); [reflexivity|exact Hle]|].
      constructor; assumption.
    + destruct (highest <? x) eqn:Elt.
      * destruct (IH x Hx Hrest) as (Hin & Hle & Hall).
        split; [right; destruct Hin as [->|Hin]; [now left|now right]|].
        split; [exact (leb_trans _ _ _ (ltb_leb _ _ Elt) Hle)|].
        constructor; assumption.
      * destruct (IH highest Hh Hrest) as (Hin & Hle & Hall).
        split; [destruct Hin as [->|Hin]; [now left|right; now right]|].
        split; [exact Hle|]. constructor; [|exact Hall].
        exact (leb_trans _ _ _ (not_ltb_leb _ _ Hh Hx Elt) Hle).
Qed.

(** One [NaN] among the values makes the result [NaN]. *)
Lemma minLoop_nan values : forall lowest,
  Exists (fun x => is_nan x = true) values -> minLoop lowest values = nan.
Proof.
  induction values as [|x rest IH]; intros lowest H; inversion H; subst; cbn [minLoop].
  - now rewrite H1.
  - destruct (is_nan x); [reflexivity|].
    destruct (_ && _); [now apply IH|]. destruct (x <? lowest); now apply IH.
Qed.

Lemma maxLoop_nan values : forall highest,
  Exists (fun x => is_nan x = true) values -> maxLoop highest values = nan.
Proof.
  induction values as [|x rest IH]; intros highest H; inversion H; subst; cbn [maxLoop].
  - now rewrite H1.
  - destruct (is_nan x); [reflexivity|].
    destruct (_ && _); [now apply IH|]. destruct (highest <? x); now apply IH.
Qed.

(** [Math.min] and [Math.max] of numbers, at least one: the result is one
    of them and bounds them all. *)
Lemma Math_min_spec values :
  values <> [] -> Forall (fun x => is_nan x = false) values ->
  In (Math_min values) values
  /\ Forall (fun x => (Math_min values <=? x) = true) values.
Proof.
  intros Hne Hv. unfold Math_min.
  destruct (minLoop_spec values infinity eq_refl Hv) as (Hin & _ & Hall).
  split; [|exact Hall]. destruct Hin as [E|Hin]; [|exact Hin].
  rewrite E in *. destruct values as [|x rest]; [congruence|].
  inversion Hall; subst. left. now apply leb_infinity.
Qed.

Lemma Math_max_spec values :
  values <> [] -> Forall (fun x => is_nan x = false) values ->
  In (Math_max values) values
  /\ Forall (fun x => (x <=? Math_max values) = true) values.
Proof.
  intros Hne Hv. unfold Math_max.
  destruct (maxLoop_spec values neg_infinity eq_refl Hv) as (Hin & _ & Hall).
  split; [|exact Hall]. destruct Hin as [E|Hin]; [|exact Hin].
  rewrite E in *. destruct values as [|x rest]; [congruence|].
  inversion Hall; subst. left. now apply leb_neg_infinity.
Qed.

End MinMaxFacts.

(** ** Statistics *)

Lemma getVehicleRecords_length st vehicleId :
  Nat.eqb (List.length (getVehicleRecords st vehicleId)) 0 = true
  <-> getVehicleRecords st vehicleId = [].
Proof.
  destruct (getVehicleRecords st vehicleId); simpl; split; (discriminate || reflexivity).
Qed.

Lemma getConsumptionStats_nonempty st vehicleId :
  getVehicleRecords st vehicleId <> [] ->
  getConsumptionStats st vehicleId =
  let records := getVehicleRecords st vehicleId in
  {| Stats.count := List.length records;
     Stats.totalDistance := round2 (reduceSum FuelRecord.distance records);
     Stats.totalFuel := round2 (reduceSum FuelRecord.fuelAmount records);
     Stats.averageConsumption :=
       round2 (reduceSum FuelRecord.distance records
               / reduceSum FuelRecord.fuelAmount records);
     Stats.minConsumption := Math_min (map FuelRecord.consumption records);
     Stats.maxConsumption := Math_max (map FuelRecord.consumption records) |}.
Proof.
  intros H. unfold getConsumptionStats.
  destruct (getVehicleRecords st vehicleId); [congruence|reflexivity].
Qed.

(** X1.  When a vehicle has records and no consumption among them is
    [NaN], the minimum and the maximum that [getConsumptionStats] returns
    are each the consumption of one of the records, every consumption lies
    between them, and the count is the number of the records. *)
Theorem getConsumptionStats_bounds st vehicleId :
  getVehicleRecords st vehicleId <> [] ->
  Forall (fun r => is_nan (FuelRecord.consumption r) = false)
    (getVehicleRecords st vehicleId) ->
  let records := getVehicleRecords st vehicleId in
  let stats := getConsumptionStats st vehicleId in
  Stats.count stats = List.length records
  /\ (exists r, In r records /\ FuelRecord.consumption r = Stats.minConsumption stats)
  /\ (exists r, In r records /\ FuelRecord.consumption r = Stats.maxConsumption stats)
  /\ (forall r, In r records ->
        (Stats.minConsumption stats <=? FuelRecord.consumption r)%float = true
        /\ (FuelRecord.consumption r <=? Stats.maxConsumption stats)%float = true)
  /\ (Stats.minConsumption stats <=? Stats.maxConsumption stats)%float = true.
Proof.
  intros Hne Hnum records stats. subst stats.
  rewrite (getConsumptionStats_nonempty _ _ Hne). cbv zeta. fold records.
  cbn [Stats.count Stats.minConsumption Stats.maxConsumption].
  assert (map FuelRecord.consumption records <> []) as Hne'.
  { intros E. apply map_eq_nil in E. contradiction. }
  assert (Forall (fun x => is_nan x = false) (map FuelRecord.consumption records))
    as Hnum' by (apply Forall_map; exact Hnum).
  destruct (MinMaxFacts.Math_min_spec _ Hne' Hnum') as (Hmin & Hlow).
  destruct (MinMaxFacts.Math_max_spec _ Hne' Hnum') as (Hmax & Hhigh).
  rewrite Forall_map, Forall_forall in Hlow, Hhigh.
  apply in_map_iff in Hmin as (rmin & Emin & Hrmin).
  apply in_map_iff in Hmax as (rmax & Emax & Hrmax).
  split; [reflexivity|]. split; [now exists rmin|]. split; [now exists rmax|].
  split; [intros r Hr; split; [now apply Hlow|now apply Hhigh]|].
  rewrite <- Emin. now apply Hhigh.
Qed.

Lemma getConsumptionStats_bounds_witness :
  let st1 := fst (addVehicle constructor "2024-01-01T00:00:00.000Z" "v1" "Car A" None) in
  let st4 :=
    run st1
      [ RecordFuelConsumption "r1" "2024-01-02T00:00:00.000Z"
          "2024-01-02T00:00:00.000Z" "v1" 10 100 None "";
        RecordFuelConsumption "r2" "2024-01-03T00:00:00.000Z"
          "2024-01-03T00:00:00.000Z" "v1" 8 100 None "";
        RecordFuelConsumption "r3" "2024-01-04T00:00:00.000Z"
          "2024-01-04T00:00:00.000Z" "v1" 0 100 None "" ] in
  map FuelRecord.consumption (getVehicleRecords st4 "v1")
  = [10%float; (25 / 2)%float; infinity]
  /\ Stats.count (getConsumptionStats st4 "v1") = 3
  /\ (Stats.minConsumption (getConsumptionStats st4 "v1")
      <=? Stats.maxConsumption (getConsumptionStats st4 "v1"))%float = true.
Proof.
  intros st1 st4. split; [reflexivity|].
  assert (getVehicleRecords st4 "v1" <> []) as Hne
    by (intros E; vm_compute in E; discriminate E).
  assert (Forall (fun r => is_nan (FuelRecord.consumption r) = false)
            (getVehicleRecords st4 "v1")) as Hnum
    by (vm_compute; repeat constructor).
  destruct (getConsumptionStats_bounds st4 "v1" Hne Hnum) as (Hcount & _ & _ & _ & Hle).
  split; [exact Hcount|exact Hle].
Defined.

(** X2.  When the consumption of one record of a vehicle is [NaN], as it
    is for a record made with distance 0 and fuel amount 0, the minimum and
    the maximum that [getConsumptionStats] returns are both [NaN]. *)
Theorem getConsumptionStats_NaN st vehicleId r :
  In r (getVehicleRecords st vehicleId) ->
  is_nan (FuelRecord.consumption r) = true ->
  Stats.minConsumption (getConsumptionStats st vehicleId) = nan
  /\ Stats.maxConsumption (getConsumptionStats st vehicleId) = nan.
Proof.
  intros Hin Hnan.
  assert (getVehicleRecords st vehicleId <> []) as Hne
    by (intros E; rewrite E in Hin; contradiction).
  rewrite (getConsumptionStats_nonempty _ _ Hne). cbv zeta.
  cbn [Stats.minConsumption Stats.maxConsumption].
  assert (Exists (fun x => is_nan x = true)
            (map FuelRecord.consumption (getVehicleRecords st vehicleId))) as Hex.
  { apply Exists_exists. exists (FuelRecord.consumption r). split; [|exact Hnan].
    now apply in_map. }
  split; [now apply MinMaxFacts.minLoop_nan|now apply MinMaxFacts.maxLoop_nan].
Qed.

Lemma getConsumptionStats_NaN_witness :
  let st1 := fst (addVehicle constructor "2024-01-01T00:00:00.000Z" "v1" "Car A" None) in
  let st3 :=
    run st1
      [ RecordFuelConsumption "r1" "2024-01-02T00:00:00.000Z"
          "2024-01-02T00:00:00.000Z" "v1" 10 100 None "";
        RecordFuelConsumption "r2" "2024-01-03T00:00:00.000Z"
          "2024-01-03T00:00:00.000Z" "v1" 0 0 None "" ] in
  map FuelRecord.consumption (getVehicleRecords st3 "v1") = [10%float; nan]
  /\ Stats.minConsumption (getConsumptionStats st3 "v1") = nan
  /\ Stats.maxConsumption (getConsumptionStats st3 "v1") = nan.
Proof.
  cbv zeta. split; [reflexivity|].
  exact (getConsumptionStats_NaN
           (run (fst (addVehicle constructor "2024-01-01T00:00:00.000Z" "v1" "Car A" None))
              [ RecordFuelConsumption "r1" "2024-01-02T00:00:00.000Z"
                  "2024-01-02T00:00:00.000Z" "v1" 10 100 None "";
                RecordFuelConsumption "r2" "2024-01-03T00:00:00.000Z"
                  "2024-01-03T00:00:00.000Z" "v1" 0 0 None "" ])
           "v1"
           (FuelRecord.mk "r2" "v1" 0 0 nan "2024-01-03T00:00:00.000Z" ""
              "2024-01-03T00:00:00.000Z")
           (or_intror (or_introl eq_refl)) eq_refl).
Defined.

(** X3.  [getConsumptionStats] and [getAverageConsumption] on one vehicle
    are in one of three cases.  Without records both averages are 0.  With
    a total fuel above zero the two averages are the same number.  With
    records and a total fuel that is not above zero,
    [getAverageConsumption] returns 0 while the statistics hold the rounded
    quotient, which is [NaN] or an infinity when the total fuel is a zero. *)
Theorem getConsumptionStats_average st vehicleId :
  let records := getVehicleRecords st vehicleId in
  let totalKm := reduceSum FuelRecord.distance records in
  let totalLiters := reduceSum FuelRecord.fuelAmount records in
  let stats := getConsumptionStats st vehicleId in
  (records = []
   /\ stats = Stats.mk 0 0 0 0 0 0
   /\ getAverageConsumption st vehicleId = 0%float)
  \/ (records <> [] /\ (0 <? totalLiters)%float = true
      /\ Stats.averageConsumption stats = getAverageConsumption st vehicleId)
  \/ (records <> [] /\ (0 <? totalLiters)%float = false
      /\ getAverageConsumption st vehicleId = 0%float
      /\ Stats.averageConsumption stats = round2 (totalKm / totalLiters)
      /\ (is_zero totalLiters = true ->
          is_finite (Stats.averageConsumption stats) = false)).
Proof.
  intros records totalKm totalLiters stats. subst stats.
  unfold getConsumptionStats, getAverageConsumption.
  fold records. fold totalKm. fold totalLiters.
  destruct records as [|r rs] eqn:E; [left; repeat split|right].
  cbn [List.length Nat.eqb Stats.averageConsumption].
  destruct (0 <? totalLiters)%float eqn:Hpos.
  - left. repeat split. discriminate.
  - right. split; [discriminate|]. repeat split.
    intros Hz. now apply NumberFacts.round2_div_zero.
Qed.

(** ** Records in a range of dates *)

Lemma leb_not_ltb x y : (x <=? y)%float = true -> (y <? x)%float = false.
Proof.
  intros H. destruct (MinMaxFacts.leb_true _ _ H) as (a & b & Ha & Hb & Hab).
  rewrite (OrderFacts.ltb_position _ _ _ _ Hb Ha). now apply Z.ltb_ge.
Qed.

Lemma leb_not_nan x y :
  (x <=? y)%float = true -> is_nan x = false /\ is_nan y = false.
Proof.
  intros H. split.
  - destruct (is_nan x) eqn:E; [|reflexivity].
    apply NumberFacts.is_nan_spec in E. subst x. now rewrite OrderFacts.leb_nan_l in H.
  - destruct (is_nan y) eqn:E; [|reflexivity].
    apply NumberFacts.is_nan_spec in E. subst y. now rewrite OrderFacts.leb_nan_r in H.
Qed.

(** X4.  [getRecordsByDateRange] returns, in the order of the store, the
    records of the vehicle whose date lies between the two bounds, both
    included.  It never throws: a record whose date is no date is left out,
    and the result is empty when a bound is no date or when the end lies
    before the start. *)
Theorem getRecordsByDateRange_spec getTime st vehicleId start end_ :
  let result := getRecordsByDateRange getTime st vehicleId start end_ in
  result
  = filter
      (fun r =>
         ofVehicle vehicleId r
         && ((start <=? getTime (FuelRecord.date r))
             && (getTime (FuelRecord.date r) <=? end_))%float)
      (fuelRecords st)
  /\ (forall r, In r result ->
        In r (getVehicleRecords st vehicleId)
        /\ is_nan (getTime (FuelRecord.date r)) = false
        /\ (start <=? getTime (FuelRecord.date r))%float = true
        /\ (getTime (FuelRecord.date r) <=? end_)%float = true)
  /\ (forall r, In r (getVehicleRecords st vehicleId) ->
        (start <=? getTime (FuelRecord.date r))%float = true ->
        (getTime (FuelRecord.date r) <=? end_)%float = true ->
        In r result)
  /\ (is_nan start = true \/ is_nan end_ = true \/ (end_ <? start)%float = true ->
      result = []).
Proof.
  intros result. subst result. unfold getRecordsByDateRange, getVehicleRecords.
  split; [|split; [|split]].
  - induction (fuelRecords st) as [|r l IH]; simpl; [reflexivity|].
    destruct (ofVehicle vehicleId r); simpl; [|exact IH].
    destruct (_ && _)%float; now rewrite IH.
  - intros r Hr. apply filter_In in Hr as [Hin Hr].
    apply andb_true_iff in Hr as [H1 H2].
    repeat split; try assumption. now apply (leb_not_nan _ _ H1).
  - intros r Hin H1 H2. apply filter_In. split; [exact Hin|]. now rewrite H1, H2.
  - intros Hbad.
    destruct (filter _ (filter _ _)) as [|r l] eqn:E; [reflexivity|exfalso].
    assert (In r (r :: l)) as Hr by now left. rewrite <- E in Hr.
    apply filter_In in Hr as [_ Hr]. apply andb_true_iff in Hr as [H1 H2].
    destruct Hbad as [Hs|[He|Hlt]].
    + apply (leb_not_nan _ _) in H1 as [H1 _]. congruence.
    + apply (leb_not_nan _ _) in H2 as [_ H2]. congruence.
    + pose proof (MinMaxFacts.leb_trans _ _ _ H1 H2) as H.
      apply leb_not_ltb in H. congruence.
Qed.

(** ** Adding a vehicle *)

Lemma find_app_one {A} (p : A -> bool) l x :
  find p (l ++ [x]) =
  match find p l with
  | Some y => Some y
  | None => if p x then Some x else None
  end.
Proof.
  induction l as [|a l IH]; simpl; [reflexivity|].
  destruct (p a); [reflexivity|exact IH].
Qed.

Lemma getVehicle_addVehicle st now vehicleId name fuelType other :
  getVehicle (fst (addVehicle st now vehicleId name fuelType)) other =
  match getVehicle st other with
  | Some v => Some v
  | None =>
      if String.eqb other vehicleId
      then Some (snd (addVehicle st now vehicleId name fuelType))
      else None
  end.
Proof.
  unfold addVehicle, getVehicle. cbn [fst snd vehicles].
  rewrite find_app_one. unfold hasId at 2. cbn [Vehicle.id].
  now rewrite (String.eqb_sym vehicleId other).
Qed.

(** X5.  [addVehicle] appends the new vehicle, with totals 0, and leaves
    the records alone.  It does not check the id: a lookup that found a
    vehicle before finds the same vehicle afterwards, so a vehicle added
    under an id that is taken is never found by [getVehicle]; the new
    vehicle is found exactly when no vehicle had its id.  After the call,
    [recordFuelConsumption] for that id does not throw. *)
Theorem addVehicle_spec st now vehicleId name fuelType :
  let st' := fst (addVehicle st now vehicleId name fuelType) in
  let vehicle := snd (addVehicle st now vehicleId name fuelType) in
  Vehicle.id vehicle = vehicleId
  /\ Vehicle.totalDistance vehicle = 0%float
  /\ Vehicle.totalFuelConsumed vehicle = 0%float
  /\ getAllVehicles st' = getAllVehicles st ++ [vehicle]
  /\ fuelRecords st' = fuelRecords st
  /\ (forall other,
        getVehicle st' other =
        match getVehicle st other with
        | Some v => Some v
        | None => if String.eqb other vehicleId then Some vehicle else None
        end)
  /\ (forall genId nowDate nowCreated fuelAmount distance date notes,
        exists st'' record,
          recordFuelConsumption st' genId nowDate nowCreated vehicleId
            fuelAmount distance date notes = (st'', inr record)).
Proof.
  cbv zeta. repeat (split; [reflexivity|]).
  split; [intros other; apply getVehicle_addVehicle|].
  intros. unfold recordFuelConsumption.
  rewrite getVehicle_addVehicle, String.eqb_refl.
  destruct (getVehicle st vehicleId); eexists _, _; reflexivity.
Qed.

Lemma foundConsistent_addVehicle st now vehicleId name fuelType :
  foundConsistent st ->
  (getVehicle st vehicleId = None -> getVehicleRecords st vehicleId = []) ->
  foundConsistent (fst (addVehicle st now vehicleId name fuelType)).
Proof.
  intros Hinv Hfresh other v Hv.
  assert (fuelRecords (fst (addVehicle st now vehicleId name fuelType))
          = fuelRecords st) as Hrec by reflexivity.
  rewrite getVehicle_addVehicle in Hv.
  assert (forall u, consistent st u ->
                    consistent (fst (addVehicle st now vehicleId name fuelType)) u)
    as Hframe.
  { intros u. apply consistent_frame. unfold getVehicleRecords. now rewrite Hrec. }
  destruct (getVehicle st other) as [u|] eqn:Hother.
  - injection Hv as <-. apply Hframe. exact (Hinv _ _ Hother).
  - destruct (String.eqb other vehicleId) eqn:E; [|discriminate].
    apply String.eqb_eq in E. subst other. injection Hv as <-.
    unfold consistent, getVehicleRecords. rewrite Hrec.
    cbn [addVehicle snd Vehicle.id Vehicle.totalDistance Vehicle.totalFuelConsumed].
    fold (getVehicleRecords st vehicleId). rewrite (Hfresh Hother).
    split; exists 0%Z; split; reflexivity.
Qed.

(** X6.  [addVehicle] keeps the aggregate invariant of the vehicles that
    lookups reach, provided that no record of the store carries the new id
    when that id is not taken yet. *)
Theorem addVehicle_foundConsistent st now vehicleId name fuelType :
  foundConsistent st ->
  (getVehicle st vehicleId = None -> getVehicleRecords st vehicleId = []) ->
  foundConsistent (fst (addVehicle st now vehicleId name fuelType)).
Proof. apply foundConsistent_addVehicle. Qed.

Lemma addVehicle_foundConsistent_witness :
  let st1 := fst (addVehicle constructor "2024-01-01T00:00:00.000Z" "v1" "Car A" None) in
  let st2 := fst (recordFuelConsumption st1 "r1" "2024-01-02T00:00:00.000Z"
                    "2024-01-02T00:00:00.000Z" "v1" 10 150 None "") in
  exactRun st1
    [RecordFuelConsumption "r1" "2024-01-02T00:00:00.000Z"
       "2024-01-02T00:00:00.000Z" "v1" 10 150 None ""] = true
  /\ getVehicleRecords st2 "v2" = []
  /\ foundConsistent
       (fst (addVehicle st2 "2024-01-03T00:00:00.000Z" "v2" "Car B" (Some "diesel"))).
Proof.
  intros st1 st2. split; [reflexivity|]. split; [reflexivity|].
  apply (addVehicle_foundConsistent st2 "2024-01-03T00:00:00.000Z" "v2" "Car B"
           (Some "diesel")).
  - apply (run_foundConsistent
             [RecordFuelConsumption "r1" "2024-01-02T00:00:00.000Z"
                "2024-01-02T00:00:00.000Z" "v1" 10 150 None ""] st1).
    + apply allConsistent_found. apply allConsistent_addVehicle.
    + reflexivity.
  - intros _. reflexivity.
Defined.

(** ** Deleting a record *)

(** X7.  [deleteRecord] throws the not-found error and leaves the store as
    it was when no record has the id.  Otherwise it returns [true] and
    removes the first record with the id and no other; the vehicle found
    for that record has the distance and the fuel amount of the record
    subtracted from its totals, every other lookup being as before, and the
    vehicles are untouched when the record has no vehicle. *)
Theorem deleteRecord_spec st recordId :
  match find (recordHasId recordId) (fuelRecords st) with
  | None =>
      deleteRecord st recordId
      = (st, inl (NotFoundError ("Record with ID " ++ recordId ++ " not found")))
  | Some record =>
      exists st' before after,
        deleteRecord st recordId = (st', inr true)
        /\ fuelRecords st = before ++ record :: after
        /\ Forall (fun r => FuelRecord.id r <> recordId) before
        /\ fuelRecords st' = before ++ after
        /\ match getVehicle st (FuelRecord.vehicleId record) with
           | Some v =>
               getVehicle st' (FuelRecord.vehicleId record)
               = Some (subTotals v (FuelRecord.distance record)
                                   (FuelRecord.fuelAmount record))
           | None => vehicles st' = vehicles st
           end
        /\ (forall other, other <> FuelRecord.vehicleId record ->
              getVehicle st' other = getVehicle st other)
        /\ map Vehicle.id (vehicles st') = map Vehicle.id (vehicles st)
  end.
Proof.
  destruct (find _ (fuelRecords st)) as [record|] eqn:Hrec.
  2: now apply deleteRecord_missing.
  destruct (deleteRecord_found st recordId record Hrec) as (i & Hi & Hn & ->).
  destruct (splice1_findIndex _ _ _ Hi) as (b & x & c & Hl & Hf & Hb & Hs).
  assert (x = record) as -> by congruence.
  eexists _, b, c. split; [reflexivity|]. cbn [fuelRecords vehicles].
  split; [exact Hl|]. split.
  { eapply Forall_impl; [|exact Hb]. intros r Hr E. unfold recordHasId in Hr.
    rewrite E, String.eqb_refl in Hr. discriminate. }
  split; [exact Hs|]. unfold getVehicle. cbn [vehicles]. split; [|split].
  - destruct (find (hasId (FuelRecord.vehicleId record)) (vehicles st)) as [v|] eqn:Hv.
    + rewrite find_withVehicle by reflexivity. now rewrite String.eqb_refl, Hv.
    + now apply withVehicle_none.
  - intros other Hne. rewrite find_withVehicle by reflexivity.
    apply String.eqb_neq in Hne. now rewrite Hne.
  - now apply ids_withVehicle.
Qed.

(** ** What the calls keep *)

Lemma getVehicle_In st vehicleId :
  getVehicle st vehicleId <> None <-> In vehicleId (map Vehicle.id (vehicles st)).
Proof.
  unfold getVehicle. induction (vehicles st) as [|v vs IH]; simpl.
  - split; [congruence|contradiction].
  - destruct (hasId vehicleId v) eqn:E.
    + apply hasId_true in E. split; [now left|discriminate].
    + rewrite IH. split; [now right|]. intros [H|H]; [|exact H].
      apply hasId_true in H. congruence.
Qed.

Lemma In_assign {A} (l : list A) i y x : In x (assign i y l) -> x = y \/ In x l.
Proof.
  revert i. induction l as [|a l IH]; intros [|i] H; simpl in *; try contradiction.
  - destruct H as [<-|H]; auto.
  - destruct H as [<-|H]; auto. destruct (IH _ H); auto.
Qed.

Lemma In_splice1 {A} (l : list A) i x : In x (splice1 i l) -> In x l.
Proof.
  revert i. induction l as [|a l IH]; intros [|i] H; simpl in *; try contradiction.
  - now right.
  - destruct H as [<-|H]; [now left|right; eauto].
Qed.

Lemma map_assign {A B} (f : A -> B) (l : list A) i x y :
  nth_error l i = Some x -> f y = f x -> map f (assign i y l) = map f l.
Proof.
  revert i. induction l as [|a l IH]; intros [|i] H E; simpl in *; try discriminate.
  - injection H as ->. now rewrite E.
  - now rewrite (IH i).
Qed.

Lemma map_splice1 {A B} (f : A -> B) (l : list A) i :
  map f (splice1 i l) = splice1 i (map f l).
Proof.
  revert i. induction l as [|a l IH]; intros [|i]; simpl; try reflexivity.
  now rewrite IH.
Qed.

Lemma NoDup_splice1 {A} (l : list A) i : NoDup l -> NoDup (splice1 i l).
Proof.
  revert i. induction l as [|a l IH]; intros [|i] H; simpl; try assumption.
  - now inversion H.
  - inversion H as [|? ? Hnotin Hnd]; subst. constructor; [|now apply IH].
    intros Hin. apply Hnotin. now apply In_splice1 in Hin.
Qed.

Lemma NoDup_map_filter {A B} (f : A -> B) (p : A -> bool) l :
  NoDup (map f l) -> NoDup (map f (filter p l)).
Proof.
  induction l as [|a l IH]; simpl; intros H; [constructor|].
  inversion H as [|? ? Hnotin Hnd]; subst.
  destruct (p a); simpl; [|now apply IH].
  constructor; [|now apply IH]. intros Hin. apply Hnotin.
  apply in_map_iff in Hin as (x & E & Hx). apply filter_In in Hx as [Hx _].
  rewrite <- E. now apply in_map.
Qed.

(** Where the records of the store come from after a record operation:
    a record was there before; or it is the new record, made for a vehicle
    that was found; or it is the patched copy of a record that was there. *)
Lemma step_records st op r :
  In r (fuelRecords (step st op)) ->
  In r (fuelRecords st)
  \/ (upToDate r
      /\ (getVehicle st (FuelRecord.vehicleId r) <> None
          \/ exists old, In old (fuelRecords st)
                         /\ FuelRecord.vehicleId r = FuelRecord.vehicleId old)).
Proof.
  destruct op as [genId nowDate nowCreated vehicleId fuelAmount distance date notes
                 |recordId updates|recordId]; cbn [step].
  - destruct (recordFuelConsumption st genId nowDate nowCreated vehicleId
                fuelAmount distance date notes) as [st' [e|record]] eqn:E.
    + unfold recordFuelConsumption in E.
      destruct (getVehicle st vehicleId); [discriminate|]. injection E as <- _. now left.
    + pose proof (recordFuelConsumption_upToDate _ _ _ _ _ _ _ _ _ _ _ E) as Hup.
      unfold recordFuelConsumption in E.
      destruct (getVehicle st vehicleId) as [v|] eqn:Hv; [|discriminate].
      injection E as <- <-. cbn [fst fuelRecords]. intros H.
      apply in_app_or in H as [H|[<-|[]]]; [now left|right].
      split; [exact Hup|left]. cbn [FuelRecord.vehicleId]. congruence.
  - destruct (find (recordHasId recordId) (fuelRecords st)) as [old|] eqn:Hold.
    2: { rewrite updateRecord_missing by assumption. now left. }
    destruct (updateRecord_found st recordId updates old Hold) as (i & Hi & Hn & ->).
    cbv zeta. cbn [fst fuelRecords]. intros H.
    apply In_assign in H as [->|H]; [right|now left].
    split; [apply recalculate_upToDate|right].
    exists old. split; [now apply nth_error_In in Hn|].
    now rewrite recalculate_vehicleId.
  - destruct (find (recordHasId recordId) (fuelRecords st)) as [old|] eqn:Hold.
    2: { rewrite deleteRecord_missing by assumption. now left. }
    destruct (deleteRecord_found st recordId old Hold) as (i & Hi & Hn & ->).
    cbn [fst fuelRecords]. intros H. left. now apply In_splice1 in H.
Qed.

(** Where the records come from after any call. *)
Lemma call_records st c r :
  In r (fuelRecords (call st c)) ->
  match c with
  | OnRecords _ =>
      In r (fuelRecords st)
      \/ (upToDate r
          /\ (getVehicle st (FuelRecord.vehicleId r) <> None
              \/ exists old, In old (fuelRecords st)
                             /\ FuelRecord.vehicleId r = FuelRecord.vehicleId old))
  | AddVehicle _ _ _ _ => In r (fuelRecords st)
  | DeleteVehicle vehicleId =>
      In r (fuelRecords st)
      /\ (getVehicle st vehicleId <> None -> FuelRecord.vehicleId r <> vehicleId)
  | ClearAllData => False
  end.
Proof.
  destruct c as [op|now vehicleId name fuelType|vehicleId|]; cbn [call].
  - apply step_records.
  - trivial.
  - unfold deleteVehicle. destruct (findIndex _ _) as [i|] eqn:Hi.
    + cbn [fst fuelRecords]. intros H. apply filter_In in H as [H Hne].
      split; [exact H|]. intros _. unfold ofVehicle in Hne.
      now apply negb_true_iff, String.eqb_neq in Hne.
    + intros H. split; [exact H|]. intros Hfound.
      apply findIndex_None in Hi. unfold getVehicle in Hfound. congruence.
  - intros [].
Qed.

(** The ids of the vehicles after a call. *)
Lemma call_vehicleIds st c :
  match c with
  | OnRecords _ => map Vehicle.id (vehicles (call st c)) = map Vehicle.id (vehicles st)
  | AddVehicle _ vehicleId _ _ =>
      map Vehicle.id (vehicles (call st c)) = map Vehicle.id (vehicles st) ++ [vehicleId]
  | DeleteVehicle vehicleId =>
      (getVehicle st vehicleId = None /\ call st c = st)
      \/ exists before v after,
           vehicles st = before ++ v :: after /\ Vehicle.id v = vehicleId
           /\ vehicles (call st c) = before ++ after
  | ClearAllData => vehicles (call st c) = []
  end.
Proof.
  destruct c as [op|now vehicleId name fuelType|vehicleId|]; cbn [call].
  - apply ids_step.
  - unfold addVehicle. cbn [fst vehicles]. now rewrite map_app.
  - unfold deleteVehicle. destruct (findIndex _ _) as [i|] eqn:Hi.
    + right. destruct (splice1_findIndex _ _ _ Hi) as (b & x & a & Hl & Hf & _ & Hs).
      exists b, x, a. cbn [fst vehicles]. split; [exact Hl|]. split; [|exact Hs].
      apply find_some in Hf as [_ Hf]. now apply hasId_true.
    + left. apply findIndex_None in Hi. now split.
  - reflexivity.
Qed.

Lemma call_referenced st c : referenced st -> referenced (call st c).
Proof.
  intros Href r Hr. apply getVehicle_In.
  assert (forall x, In x (fuelRecords st) ->
                    In (FuelRecord.vehicleId x) (map Vehicle.id (vehicles st))) as Href'
    by (intros x Hx; apply getVehicle_In; now apply Href).
  pose proof (call_vehicleIds st c) as Hids.
  apply call_records in Hr.
  destruct c as [op|now vehicleId name fuelType|vehicleId|].
  - rewrite Hids.
    destruct Hr as [Hr|[_ [Hr|(old & Hold & ->)]]]; auto. now apply getVehicle_In.
  - rewrite Hids. apply in_or_app. left. now apply Href'.
  - destruct Hr as [Hr Hdel]. specialize (Href' _ Hr).
    destruct Hids as [[_ ->]|(b & v & a & Hl & Hv & ->)]; [exact Href'|].
    assert (FuelRecord.vehicleId r <> vehicleId) as Hne.
    { apply Hdel. apply getVehicle_In. rewrite Hl, map_app. apply in_or_app.
      right. left. exact Hv. }
    rewrite Hl, map_app in Href'. rewrite map_app.
    apply in_app_or in Href' as [H|[H|H]]; apply in_or_app; auto. congruence.
  - contradiction.
Qed.


Lemma session_keeps (P : Tracker -> Prop) :
  (forall st c, P st -> P (call st c)) ->
  forall calls st, P st -> P (session st calls).
Proof.
  intros Hcall. induction calls as [|c calls IH]; intros st H; [exact H|].
  apply (IH (call st c)). now apply Hcall.
Qed.

(** X8.  In every store that a new instance reaches through [addVehicle],
    [recordFuelConsumption], [updateRecord], [deleteRecord],
    [deleteVehicle] and [clearAllData], each record belongs to a vehicle of
    the store: the vehicle that [updateRecord] and [deleteRecord] look for
    is always found. *)
Theorem session_referenced calls :
  let st := session constructor calls in
  referenced st
  /\ (forall recordId record,
        find (recordHasId recordId) (fuelRecords st) = Some record ->
        exists v, getVehicle st (FuelRecord.vehicleId record) = Some v).
Proof.
  assert (referenced (session constructor calls)) as H.
  { apply (session_keeps referenced call_referenced). intros r []. }
  split; [exact H|]. intros recordId record Hrec.
  apply find_some in Hrec as [Hin _]. specialize (H _ Hin).
  destruct (getVehicle _ _) as [v|]; [now exists v|congruence].
Qed.


(** ** Deleting a vehicle, and the other vehicles *)

Lemma find_middle {A} (p : A -> bool) (b a : list A) x :
  p x = false -> find p (b ++ x :: a) = find p (b ++ a).
Proof.
  intros H. induction b as [|y b IH]; simpl; [now rewrite H|].
  destruct (p y); [reflexivity|exact IH].
Qed.

Lemma filter_filter_other vehicleId other l :
  other <> vehicleId ->
  filter (ofVehicle other) (filter (fun r => negb (ofVehicle vehicleId r)) l)
  = filter (ofVehicle other) l.
Proof.
  intros Hne. induction l as [|r l IH]; simpl; [reflexivity|].
  destruct (ofVehicle vehicleId r) eqn:E; simpl.
  - rewrite IH. unfold ofVehicle in *. apply String.eqb_eq in E.
    rewrite E. apply not_eq_sym, String.eqb_neq in Hne. now rewrite Hne.
  - now rewrite IH.
Qed.

(** [deleteVehicle] on a vehicle that is found. *)
Lemma deleteVehicle_found st vehicleId v :
  getVehicle st vehicleId = Some v ->
  exists before after,
    vehicles st = before ++ v :: after
    /\ Forall (fun u => Vehicle.id u <> vehicleId) before
    /\ deleteVehicle st vehicleId =
       ({| fuelRecords :=
             filter (fun r => negb (ofVehicle vehicleId r)) (fuelRecords st);
           vehicles := before ++ after |}, inr true).
Proof.
  intros Hv. unfold getVehicle in Hv.
  destruct (find_findIndex _ _ _ Hv) as (i & Hi & _).
  destruct (splice1_findIndex _ _ _ Hi) as (b & x & a & Hl & Hf & Hb & Hs).
  assert (x = v) as -> by congruence.
  exists b, a. split; [exact Hl|]. split.
  - eapply Forall_impl; [|exact Hb]. intros u Hu E.
    apply hasId_true in E. congruence.
  - unfold deleteVehicle. now rewrite Hi, Hs.
Qed.

Lemma deleteVehicle_missing st vehicleId :
  getVehicle st vehicleId = None ->
  deleteVehicle st vehicleId
  = (st, inl (NotFoundError ("Vehicle with ID " ++ vehicleId ++ " not found"))).
Proof.
  intros H. apply findIndex_None in H. unfold deleteVehicle. now rewrite H.
Qed.

(** X10.  [deleteVehicle] of a vehicle that is found leaves every other id
    as it was: the same vehicle is found for it and it has the same
    records.  For the deleted id, the next vehicle that carries it, if
    there is one, is found from then on, without any record; when the ids
    of the vehicles are distinct there is none, and
    [recordFuelConsumption] for the id throws. *)
Theorem deleteVehicle_others st vehicleId v :
  getVehicle st vehicleId = Some v ->
  exists st' before after,
    deleteVehicle st vehicleId = (st', inr true)
    /\ vehicles st = before ++ v :: after
    /\ (forall other, other <> vehicleId ->
          getVehicle st' other = getVehicle st other
          /\ getVehicleRecords st' other = getVehicleRecords st other)
    /\ getVehicle st' vehicleId = find (hasId vehicleId) after
    /\ getVehicleRecords st' vehicleId = []
    /\ (distinctVehicles st ->
        getVehicle st' vehicleId = None
        /\ forall genId nowDate nowCreated fuelAmount distance date notes,
             recordFuelConsumption st' genId nowDate nowCreated vehicleId
               fuelAmount distance date notes
             = (st', inl (NotFoundError ("Vehicle with ID " ++ vehicleId ++ " not found")))).
Proof.
  intros Hv. destruct (deleteVehicle_found _ _ _ Hv) as (b & a & Hl & Hb & ->).
  pose proof (getVehicle_id _ _ _ Hv) as Hid.
  eexists _, b, a. split; [reflexivity|]. split; [exact Hl|].
  unfold getVehicle, getVehicleRecords in *. cbn [vehicles fuelRecords].
  assert (find (hasId vehicleId) (b ++ a) = find (hasId vehicleId) a) as Hafter.
  { clear - Hb. induction b as [|u b IH]; [reflexivity|].
    inversion Hb as [|? ? Hu Hb']; subst. simpl.
    destruct (hasId vehicleId u) eqn:E; [|now apply IH].
    apply hasId_true in E. contradiction. }
  split; [|split; [exact Hafter|split]].
  - intros other Hne. split; [|now apply filter_filter_other].
    rewrite Hl. symmetry. apply find_middle. unfold hasId. rewrite Hid.
    now apply String.eqb_neq, not_eq_sym.
  - apply filter_none. intros r. now rewrite negb_true_iff.
  - intros Hnd. unfold distinctVehicles in Hnd. rewrite Hl, map_app in Hnd.
    cbn [map] in Hnd. apply NoDup_remove_2 in Hnd.
    assert (find (hasId vehicleId) (b ++ a) = None) as Hnone.
    { destruct (find (hasId vehicleId) (b ++ a)) as [u|] eqn:E; [|reflexivity].
      apply find_some in E as [Hin E]. apply hasId_true in E. elim Hnd.
      rewrite <- map_app, Hid, <- E. now apply in_map. }
    split; [exact Hnone|]. intros.
    unfold recordFuelConsumption, getVehicle. cbn [vehicles]. now rewrite Hnone.
Qed.

Lemma deleteVehicle_others_witness :
  let st1 := fst (addVehicle constructor "2024-01-01T00:00:00.000Z" "v1" "Car A" None) in
  let st2 := fst (addVehicle st1 "2024-01-01T00:00:01.000Z" "v1" "Car B" None) in
  let st3 := fst (recordFuelConsumption st2 "r1" "2024-01-02T00:00:00.000Z"
                    "2024-01-02T00:00:00.000Z" "v1" 10 150 None "") in
  exists st',
    deleteVehicle st3 "v1" = (st', inr true)
    /\ fuelRecords st' = []
    /\ option_map Vehicle.name (getVehicle st' "v1") = Some "Car B".
Proof.
  intros st1 st2 st3.
  destruct (deleteVehicle_others st3 "v1"
              (Vehicle.mk "v1" "Car A" "petrol" "2024-01-01T00:00:00.000Z" 150 10)
              eq_refl)
    as (st' & b & a & Hdel & _).
  exists st'. split; [exact Hdel|].
  vm_compute in Hdel. injection Hdel as <-. split; reflexivity.
Defined.

Lemma deleteVehicle_foundConsistent st vehicleId :
  distinctVehicles st -> foundConsistent st ->
  foundConsistent (fst (deleteVehicle st vehicleId)).
Proof.
  intros Hnd Hinv other u Hu.
  destruct (getVehicle st vehicleId) as [v|] eqn:Hv.
  2: { rewrite deleteVehicle_missing in * by assumption. exact (Hinv _ _ Hu). }
  destruct (deleteVehicle_found _ _ _ Hv) as (b & a & Hl & Hb & Hdel).
  rewrite Hdel in *. cbn [fst] in *.
  pose proof (getVehicle_id _ _ _ Hv) as Hid.
  pose proof (getVehicle_id _ _ _ Hu) as Hidu.
  unfold getVehicle in Hu. cbn [vehicles] in Hu.
  apply find_some in Hu as [Hin _].
  assert (In u (vehicles st)) as Hin'.
  { rewrite Hl. apply in_app_or in Hin as [H|H]; apply in_or_app; [now left|right; now right]. }
  assert (Vehicle.id u <> vehicleId) as Hne.
  { unfold distinctVehicles in Hnd. rewrite Hl, map_app in Hnd. cbn [map] in Hnd.
    apply NoDup_remove_2 in Hnd. intros E. apply Hnd.
    rewrite <- map_app, Hid, <- E. now apply in_map. }
  apply (consistent_frame st).
  - unfold getVehicleRecords. cbn [fuelRecords]. now apply filter_filter_other.
  - apply (Hinv (Vehicle.id u)). now apply find_NoDup.
Qed.

(** ** The invariants of a session *)

Lemma NoDup_snoc {A} (l : list A) x : NoDup l -> ~ In x l -> NoDup (l ++ [x]).
Proof.
  induction l as [|a l IH]; simpl; intros Hnd Hx.
  - constructor; [intros []|constructor].
  - inversion Hnd as [|? ? Ha Hl]; subst. constructor.
    + intros Hin. apply in_app_or in Hin as [Hin|[E|[]]]; [contradiction|].
      apply Hx. now left.
    + apply IH; [exact Hl|]. intros Hin. apply Hx. now right.
Qed.

Lemma call_distinctVehicles st c :
  distinctVehicles st -> admissible st c = true -> distinctVehicles (call st c).
Proof.
  unfold distinctVehicles. intros Hnd Hadm. pose proof (call_vehicleIds st c) as Hids.
  destruct c as [op|now vehicleId name fuelType|vehicleId|].
  - now rewrite Hids.
  - rewrite Hids. apply NoDup_snoc; [exact Hnd|].
    cbn [admissible] in Hadm. intros Hin. apply getVehicle_In in Hin.
    destruct (getVehicle st vehicleId); [discriminate|congruence].
  - destruct Hids as [[_ ->]|(b & v & a & Hl & _ & ->)]; [exact Hnd|].
    rewrite Hl, map_app in Hnd. cbn [map] in Hnd. rewrite map_app.
    now apply NoDup_remove_1 in Hnd.
  - rewrite Hids. constructor.
Qed.

Lemma call_distinctRecords st c :
  distinctRecords st -> admissible st c = true -> distinctRecords (call st c).
Proof.
  unfold distinctRecords. intros Hnd Hadm.
  destruct c as [op|now vehicleId name fuelType|vehicleId|]; cbn [call].
  - cbn [admissible] in Hadm. apply andb_true_iff in Hadm as [_ Hfresh].
    destruct op as [genId nowDate nowCreated vehicleId fuelAmount distance date notes
                   |recordId updates|recordId]; cbn [step].
    + unfold recordFuelConsumption. destruct (getVehicle st vehicleId); [|exact Hnd].
      cbn [fst ret fuelRecords]. rewrite map_app. cbn [map FuelRecord.id].
      apply NoDup_snoc; [exact Hnd|]. intros Hin.
      apply in_map_iff in Hin as (r & E & Hr).
      destruct (find (recordHasId genId) (fuelRecords st)) eqn:Hf; [discriminate|].
      pose proof (find_none _ _ Hf _ Hr) as Hno. unfold recordHasId in Hno.
      rewrite E, String.eqb_refl in Hno. discriminate.
    + destruct (find (recordHasId recordId) (fuelRecords st)) as [old|] eqn:Hold.
      2: { now rewrite updateRecord_missing by assumption. }
      destruct (updateRecord_found st recordId updates old Hold) as (i & Hi & Hn & ->).
      cbv zeta. cbn [fst fuelRecords].
      rewrite (map_assign FuelRecord.id _ _ old); [exact Hnd|exact Hn|].
      now rewrite recalculate_id.
    + destruct (find (recordHasId recordId) (fuelRecords st)) as [old|] eqn:Hold.
      2: { now rewrite deleteRecord_missing by assumption. }
      destruct (deleteRecord_found st recordId old Hold) as (i & Hi & Hn & ->).
      cbn [fst fuelRecords]. rewrite map_splice1. now apply NoDup_splice1.
  - exact Hnd.
  - unfold deleteVehicle. destruct (findIndex _ _); [|exact Hnd].
    cbn [fst fuelRecords]. now apply NoDup_map_filter.
  - constructor.
Qed.

Lemma call_foundConsistent st c :
  distinctVehicles st -> referenced st -> foundConsistent st ->
  admissible st c = true -> foundConsistent (call st c).
Proof.
  intros Hnd Href Hinv Hadm.
  destruct c as [op|now vehicleId name fuelType|vehicleId|]; cbn [call].
  - cbn [admissible] in Hadm. apply andb_true_iff in Hadm as [Hex _].
    now apply step_foundConsistent.
  - apply foundConsistent_addVehicle; [exact Hinv|]. intros Hnone.
    unfold getVehicleRecords.
    destruct (filter (ofVehicle vehicleId) (fuelRecords st)) as [|r l] eqn:E;
      [reflexivity|exfalso].
    assert (In r (filter (ofVehicle vehicleId) (fuelRecords st))) as Hr
      by (rewrite E; now left).
    apply filter_In in Hr as [Hr Hid]. apply String.eqb_eq in Hid.
    apply (Href _ Hr). now rewrite Hid.
  - now apply deleteVehicle_foundConsistent.
  - intros other v Hv. discriminate.
Qed.

(** The invariants of the store, together. *)
Lemma session_invariants calls : forall st,
  distinctVehicles st -> distinctRecords st -> referenced st -> foundConsistent st ->
  admissibleSession st calls = true ->
  distinctVehicles (session st calls) /\ distinctRecords (session st calls)
  /\ referenced (session st calls) /\ foundConsistent (session st calls).
Proof.
  induction calls as [|c calls IH]; intros st Hv Hr Href Hinv Hadm;
    [exact (conj Hv (conj Hr (conj Href Hinv)))|].
  cbn [admissibleSession] in Hadm. apply andb_true_iff in Hadm as [Hc Hcalls].
  apply (IH (call st c)); try assumption.
  - now apply call_distinctVehicles.
  - now apply call_distinctRecords.
  - now apply call_referenced.
  - now apply call_foundConsistent.
Qed.

(** X11.  Let a new instance go through calls of [addVehicle],
    [recordFuelConsumption], [updateRecord], [deleteRecord],
    [deleteVehicle] and [clearAllData] in which every vehicle is added under
    an id that no vehicle has, every generated record id is the id of no
    record, and no addition or subtraction on the totals rounds.  Then no
    two vehicles share an id, no two records share an id, and the totals of
    every vehicle are the sums of the distances and of the fuel amounts of
    its records. *)
Theorem session_consistent calls :
  admissibleSession constructor calls = true ->
  let st := session constructor calls in
  distinctVehicles st /\ distinctRecords st /\ allConsistent st.
Proof.
  intros Hadm. cbv zeta.
  destruct (session_invariants calls constructor) as (Hv & Hr & _ & Hinv);
    try assumption.
  - constructor.
  - constructor.
  - intros r [].
  - intros other v Hv. discriminate.
  - split; [exact Hv|]. split; [exact Hr|].
    intros v Hin. apply (Hinv (Vehicle.id v)). now apply find_NoDup.
Qed.

Lemma session_consistent_witness :
  let calls :=
    [ AddVehicle "2024-01-01T00:00:00.000Z" "v1" "Car A" None;
      AddVehicle "2024-01-01T00:00:01.000Z" "v2" "Car B" (Some "diesel");
      OnRecords (RecordFuelConsumption "r1" "2024-01-02T00:00:00.000Z"
                   "2024-01-02T00:00:00.000Z" "v1" 10 150 None "");
      OnRecords (RecordFuelConsumption "r2" "2024-01-03T00:00:00.000Z"
                   "2024-01-03T00:00:00.000Z" "v2" 12 180 None "");
      OnRecords (UpdateRecord "r1"
                   {| Updates.fuelAmount := None; Updates.distance := Some 200%float;
                      Updates.date := None; Updates.notes := None |});
      DeleteVehicle "v2";
      OnRecords (DeleteRecord "r1") ] in
  admissibleSession constructor calls = true
  /\ distinctVehicles (session constructor calls)
  /\ distinctRecords (session constructor calls)
  /\ allConsistent (session constructor calls).
Proof.
  intros calls. split; [reflexivity|].
  exact (session_consistent calls eq_refl).
Defined.

(** ** Calling twice *)

Lemma find_app_none {A} (p : A -> bool) (b a : list A) :
  Forall (fun x => p x = false) b -> find p (b ++ a) = find p a.
Proof.
  induction b as [|x b IH]; intros H; [reflexivity|].
  inversion H as [|? ? Hx Hb]; subst. simpl. rewrite Hx. now apply IH.
Qed.

(** X12.  When the ids of the records are distinct, [deleteRecord] of a
    record that is found leaves no record with that id: a second
    [deleteRecord] and an [updateRecord] with the id throw the not-found
    error and leave the store as it is. *)
Theorem deleteRecord_twice st recordId record updates :
  distinctRecords st ->
  find (recordHasId recordId) (fuelRecords st) = Some record ->
  exists st',
    deleteRecord st recordId = (st', inr true)
    /\ find (recordHasId recordId) (fuelRecords st') = None
    /\ deleteRecord st' recordId
       = (st', inl (NotFoundError ("Record with ID " ++ recordId ++ " not found")))
    /\ updateRecord st' recordId updates
       = (st', inl (NotFoundError ("Record with ID " ++ recordId ++ " not found"))).
Proof.
  intros Hnd Hrec.
  destruct (deleteRecord_found st recordId record Hrec) as (i & Hi & Hn & ->).
  destruct (splice1_findIndex _ _ _ Hi) as (b & x & a & Hl & Hf & Hb & Hs).
  assert (x = record) as -> by congruence.
  eexists. split; [reflexivity|].
  assert (find (recordHasId recordId) (splice1 i (fuelRecords st)) = None) as Hnone.
  { rewrite Hs, (find_app_none _ _ _ Hb).
    destruct (find (recordHasId recordId) a) as [y|] eqn:E; [exfalso|reflexivity].
    apply find_some in E as [Hin E]. apply String.eqb_eq in E.
    apply find_some in Hrec as [_ Hid]. apply String.eqb_eq in Hid.
    unfold distinctRecords in Hnd. rewrite Hl, map_app in Hnd. cbn [map] in Hnd.
    apply NoDup_remove_2 in Hnd. apply Hnd. apply in_or_app. right.
    rewrite Hid, <- E. now apply in_map. }
  cbn [fuelRecords]. split; [exact Hnone|].
  split; [now apply deleteRecord_missing|now apply updateRecord_missing].
Qed.

Lemma deleteRecord_twice_witness :
  let st1 := fst (addVehicle constructor "2024-01-01T00:00:00.000Z" "v1" "Car A" None) in
  let st2 := fst (recordFuelConsumption st1 "r1" "2024-01-02T00:00:00.000Z"
                    "2024-01-02T00:00:00.000Z" "v1" 10 150 None "") in
  exists st',
    deleteRecord st2 "r1" = (st', inr true)
    /\ find (recordHasId "r1") (fuelRecords st') = None
    /\ deleteRecord st' "r1"
       = (st', inl (NotFoundError "Record with ID r1 not found"))
    /\ updateRecord st' "r1" Updates.empty
       = (st', inl (NotFoundError "Record with ID r1 not found")).
Proof.
  intros st1 st2.
  refine (deleteRecord_twice st2 "r1"
            (FuelRecord.mk "r1" "v1" 10 150 15 "2024-01-02T00:00:00.000Z" ""
               "2024-01-02T00:00:00.000Z")
            Updates.empty _ eq_refl).
  repeat constructor. intros [].
Defined.

Lemma patch_recalculate r updates :
  recalculate (patch (recalculate (patch r updates)) updates)
  = recalculate (patch r updates).
Proof.
  destruct r as [i v f d c dt n cr], updates as [uf ud udt un].
  unfold patch, recalculate. cbn.
  destruct uf, ud, udt, un; cbn;
    match goal with
    | |- context [((0 <? ?a) && (0 <? ?b))%float] =>
        destruct ((0 <? a) && (0 <? b))%float eqn:E; cbn; rewrite ?E; reflexivity
    end.
Qed.

(** X13.  [updateRecord] with the same patch a second time returns the same
    record as the first time and leaves the records as the first call left
    them. *)
Theorem updateRecord_twice st recordId updates old :
  find (recordHasId recordId) (fuelRecords st) = Some old ->
  exists st1 st2 record,
    updateRecord st recordId updates = (st1, inr record)
    /\ updateRecord st1 recordId updates = (st2, inr record)
    /\ fuelRecords st2 = fuelRecords st1.
Proof.
  intros Hold.
  destruct (updateRecord_found st recordId updates old Hold) as (i & Hi & Hn & Hupd).
  cbv zeta in Hupd.
  assert (find (recordHasId recordId)
            (assign i (recalculate (patch old updates)) (fuelRecords st))
          = Some (recalculate (patch old updates))) as Hfind.
  { apply find_assign; [exact Hi|]. unfold recordHasId. rewrite recalculate_id. simpl.
    apply find_some in Hold. apply Hold. }
  match type of Hupd with
  | _ = (?s, _) =>
      destruct (updateRecord_found s recordId updates _ Hfind) as (j & Hj & Hnj & Hupd2)
  end.
  cbv zeta in Hupd2. rewrite patch_recalculate in Hupd2.
  eexists _, _, _. split; [exact Hupd|]. split; [exact Hupd2|].
  cbn [fuelRecords] in *. now apply assign_same.
Qed.

Lemma updateRecord_twice_witness :
  let st1 := fst (addVehicle constructor "2024-01-01T00:00:00.000Z" "v1" "Car A" None) in
  let st2 := fst (recordFuelConsumption st1 "r1" "2024-01-02T00:00:00.000Z"
                    "2024-01-02T00:00:00.000Z" "v1" 10 150 None "") in
  let updates :=
    {| Updates.fuelAmount := Some 8%float; Updates.distance := None;
       Updates.date := None; Updates.notes := Some "city" |} in
  exists st3 st4 record,
    updateRecord st2 "r1" updates = (st3, inr record)
    /\ updateRecord st3 "r1" updates = (st4, inr record)
    /\ fuelRecords st4 = fuelRecords st3.
Proof.
  intros st1 st2 updates.
  exact (updateRecord_twice st2 "r1" updates
           (FuelRecord.mk "r1" "v1" 10 150 15 "2024-01-02T00:00:00.000Z" ""
              "2024-01-02T00:00:00.000Z")
           eq_refl).
Defined.

(** ** What record operations never touch *)

Lemma map_withVehicle {B} (g : Vehicle.t -> B) vehicleId f vs :
  (forall v, g (f v) = g v) -> map g (withVehicle vehicleId f vs) = map g vs.
Proof.
  intros Hf. induction vs as [|a vs IH]; simpl; [reflexivity|].
  destruct (hasId vehicleId a); simpl; [now rewrite Hf|now rewrite IH].
Qed.

Lemma step_keeps_vehicles {B} (g : Vehicle.t -> B) st op :
  (forall v d f, g (Vehicle.mk (Vehicle.id v) (Vehicle.name v) (Vehicle.fuelType v)
                      (Vehicle.createdAt v) d f) = g v) ->
  map g (vehicles (step st op)) = map g (vehicles st).
Proof.
  intros Hg.
  destruct op as [genId nowDate nowCreated vehicleId fuelAmount distance date notes
                 |recordId updates|recordId]; cbn [step].
  - unfold recordFuelConsumption. destruct (getVehicle st vehicleId); [|reflexivity].
    apply map_withVehicle. intros v. apply Hg.
  - unfold updateRecord. destruct (findIndex _ _) as [i|]; [|reflexivity].
    destruct (nth_error _ _); [|reflexivity]. apply map_withVehicle. intros v. apply Hg.
  - unfold deleteRecord. destruct (findIndex _ _) as [i|]; [|reflexivity].
    destruct (nth_error _ _); [|reflexivity]. apply map_withVehicle. intros v. apply Hg.
Qed.

(** X14.  [recordFuelConsumption], [updateRecord] and [deleteRecord] never
    add, remove or reorder vehicles and never change the id, name, fuel
    type or creation time of a vehicle: of a vehicle they change the two
    totals only. *)
Theorem run_keeps_vehicles st ops :
  map (fun v => (Vehicle.id v, Vehicle.name v, Vehicle.fuelType v, Vehicle.createdAt v))
    (vehicles (run st ops))
  = map (fun v => (Vehicle.id v, Vehicle.name v, Vehicle.fuelType v, Vehicle.createdAt v))
      (vehicles st).
Proof.
  revert st. induction ops as [|op ops IH]; intros st; [reflexivity|].
  change (run st (op :: ops)) with (run (step st op) ops).
  rewrite IH. now apply step_keeps_vehicles.
Qed.

(** X15.  [updateRecord] never changes the id, the vehicle id or the
    creation time of a record, and never adds, removes or reorders
    records: the records of every vehicle are the same records, in the
    same order, up to the fields that the patch may set. *)
Theorem updateRecord_keeps_identity st recordId updates :
  let st' := fst (updateRecord st recordId updates) in
  map (fun r => (FuelRecord.id r, FuelRecord.vehicleId r, FuelRecord.createdAt r))
    (fuelRecords st')
  = map (fun r => (FuelRecord.id r, FuelRecord.vehicleId r, FuelRecord.createdAt r))
      (fuelRecords st)
  /\ forall vehicleId,
       map FuelRecord.id (getVehicleRecords st' vehicleId)
       = map FuelRecord.id (getVehicleRecords st vehicleId).
Proof.
  cbv zeta.
  destruct (find (recordHasId recordId) (fuelRecords st)) as [old|] eqn:Hold.
  2: { rewrite updateRecord_missing by assumption. now split. }
  destruct (updateRecord_found st recordId updates old Hold) as (i & Hi & Hn & ->).
  cbv zeta. cbn [fst fuelRecords].
  assert (forall r, FuelRecord.id (recalculate (patch r updates)) = FuelRecord.id r
                    /\ FuelRecord.vehicleId (recalculate (patch r updates))
                       = FuelRecord.vehicleId r
                    /\ FuelRecord.createdAt (recalculate (patch r updates))
                       = FuelRecord.createdAt r) as Hsame.
  { intros r. unfold recalculate. now destruct (_ && _). }
  destruct (Hsame old) as (E1 & E2 & E3).
  split.
  - apply (map_assign _ _ _ old); [exact Hn|]. now rewrite E1, E2, E3.
  - intros vehicleId. unfold getVehicleRecords. clear Hi Hold.
    revert i Hn. induction (fuelRecords st) as [|r l IH]; intros [|i] Hn;
      simpl in *; try discriminate.
    + injection Hn as ->.
      assert (ofVehicle vehicleId (recalculate (patch old updates))
              = ofVehicle vehicleId old) as -> by (unfold ofVehicle; now rewrite E2).
      destruct (ofVehicle vehicleId old); simpl; [now rewrite E1|reflexivity].
    + destruct (ofVehicle vehicleId r); simpl; now rewrite (IH i Hn).
Qed.

(** ** Persistence *)

Lemma numberToJSON_plain x : numberToJSON x = JNumber x -> plain x = true.
Proof.
  unfold numberToJSON, plain. destruct (is_finite x); [|discriminate].
  intros E. injection E as E. simpl.
  destruct (PrimFloat.Leibniz.eqb x neg_zero) eqn:Hn; [|reflexivity].
  apply MinMaxFacts.leibniz_eqb in Hn. subst x.
  apply (f_equal Prim2SF) in E. vm_compute in E. discriminate E.
Qed.

Lemma vehicleToJSON_asVehicle v :
  asVehicle (vehicleToJSON v) = Some v -> plainVehicle v = true.
Proof.
  destruct v as [i n t c d f]. unfold vehicleToJSON, plainVehicle.
  cbn [Vehicle.id Vehicle.name Vehicle.fuelType Vehicle.createdAt
       Vehicle.totalDistance Vehicle.totalFuelConsumed].
  destruct (numberToJSON d) as [| | x | | |] eqn:Ed; try discriminate;
    destruct (numberToJSON f) as [| | y | | |] eqn:Ef; try discriminate.
  cbn. intros E. injection E as -> ->.
  now rewrite (numberToJSON_plain _ Ed), (numberToJSON_plain _ Ef).
Qed.

Lemma recordToJSON_asFuelRecord r :
  asFuelRecord (recordToJSON r) = Some r -> plainRecord r = true.
Proof.
  destruct r as [i v f d c dt n cr]. unfold recordToJSON, plainRecord.
  cbn [FuelRecord.id FuelRecord.vehicleId FuelRecord.fuelAmount FuelRecord.distance
       FuelRecord.consumption FuelRecord.date FuelRecord.notes FuelRecord.createdAt].
  destruct (numberToJSON f) as [| | x | | |] eqn:Ef; try discriminate;
    destruct (numberToJSON d) as [| | y | | |] eqn:Ed; try discriminate;
    destruct (numberToJSON c) as [| | z | | |] eqn:Ec; try discriminate.
  cbn. intros E. injection E as -> -> ->.
  now rewrite (numberToJSON_plain _ Ef), (numberToJSON_plain _ Ed),
    (numberToJSON_plain _ Ec).
Qed.

Lemma allOf_map_inv {A} (view : JSON -> option A) (toJSON : A -> JSON)
    (ok : A -> bool) l :
  (forall a, view (toJSON a) = Some a -> ok a = true) ->
  allOf view (map toJSON l) = Some l -> forallb ok l = true.
Proof.
  intros Hview. induction l as [|a l IH]; simpl; [reflexivity|].
  destruct (view (toJSON a)) as [a'|] eqn:Ea; [|discriminate].
  destruct (allOf view (map toJSON l)) as [l'|] eqn:El; [|discriminate].
  intros E. injection E as -> ->. now rewrite (Hview a Ea), IH.
Qed.

Lemma allOf_vehicles vs :
  allOf asVehicle (map vehicleToJSON vs) = Some vs <-> forallb plainVehicle vs = true.
Proof.
  split.
  - apply allOf_map_inv, vehicleToJSON_asVehicle.
  - apply allOf_map, asVehicle_vehicleToJSON.
Qed.

Lemma allOf_records rs :
  allOf asFuelRecord (map recordToJSON rs) = Some rs <-> forallb plainRecord rs = true.
Proof.
  split.
  - apply allOf_map_inv, recordToJSON_asFuelRecord.
  - apply allOf_map, asFuelRecord_recordToJSON.
Qed.

(** X16.  A new instance over the storage that [saveToStorage] wrote holds
    the saved store again exactly when every number of that store is finite
    and none is the negative zero; the constructor never throws on that
    storage, and loading it replaces whatever the store held. *)
Theorem saveToStorage_constructor st :
  (constructorWith (saveToStorage st) = Loaded st <-> plainStore st = true)
  /\ constructorWith (saveToStorage st) <> LoadThrew
  /\ forall st0, loadFromStorage st0 (saveToStorage st) = constructorWith (saveToStorage st).
Proof.
  unfold constructorWith, loadFromStorage, saveToStorage, parseItem, asArrayOf, plainStore.
  cbn [Storage.fuelTrackerVehicles Storage.fuelTrackerRecords].
  pose proof (allOf_vehicles (vehicles st)) as Hv.
  pose proof (allOf_records (fuelRecords st)) as Hr.
  destruct (allOf asVehicle (map vehicleToJSON (vehicles st))) as [vs|];
    destruct (allOf asFuelRecord (map recordToJSON (fuelRecords st))) as [rs|];
    (split; [|split; [discriminate|reflexivity]]).
  - split.
    + intros E. injection E as E. subst st. cbn in *.
      apply andb_true_iff. split; [now apply Hv|now apply Hr].
    + intros H. apply andb_true_iff in H as [H1 H2].
      apply Hv in H1. apply Hr in H2. injection H1 as ->. injection H2 as ->.
      now destruct st.
  - split; [discriminate|]. intros H. apply andb_true_iff in H as [_ H].
    apply Hr in H. discriminate H.
  - split; [discriminate|]. intros H. apply andb_true_iff in H as [H _].
    apply Hv in H. discriminate H.
  - split; [discriminate|]. intros H. apply andb_true_iff in H as [H _].
    apply Hv in H. discriminate H.
Qed.

(** X17.  [importData] of the text of [exportData] returns with the
    exported store exactly when every number of that store is finite and
    none is the negative zero; it never throws on that text. *)
Theorem exportData_importData st st0 now :
  ((exists data, importData st0 (exportData st now) = Returned st data)
   <-> plainStore st = true)
  /\ forall e, importData st0 (exportData st now) <> Threw e.
Proof.
  unfold exportData, importData, replaceWith, plainStore. cbn.
  pose proof (allOf_vehicles (vehicles st)) as Hv.
  pose proof (allOf_records (fuelRecords st)) as Hr.
  destruct (allOf asVehicle (map vehicleToJSON (vehicles st))) as [vs|];
    destruct (allOf asFuelRecord (map recordToJSON (fuelRecords st))) as [rs|];
    (split; [|discriminate]).
  - split.
    + intros [data E]. injection E as E _. subst st. cbn in *.
      apply andb_true_iff. split; [now apply Hv|now apply Hr].
    + intros H. apply andb_true_iff in H as [H1 H2].
      apply Hv in H1. apply Hr in H2. injection H1 as ->. injection H2 as ->.
      eexists. now destruct st.
  - split; [intros [data E]; discriminate E|]. intros H.
    apply andb_true_iff in H as [_ H]. apply Hr in H. discriminate H.
  - split; [intros [data E]; discriminate E|]. intros H.
    apply andb_true_iff in H as [H _]. apply Hv in H. discriminate H.
  - split; [intros [data E]; discriminate E|]. intros H.
    apply andb_true_iff in H as [H _]. apply Hv in H. discriminate H.
Qed.

(** X18.  [loadFromStorage] throws exactly when one of the two stored texts
    is malformed; a key that is absent or holds the empty string leaves its
    collection as it is, whatever the other key holds. *)
Theorem loadFromStorage_spec st storage :
  (loadFromStorage st storage = LoadThrew
   <-> Storage.fuelTrackerVehicles storage = Stored Malformed
       \/ Storage.fuelTrackerRecords storage = Stored Malformed)
  /\ ((Storage.fuelTrackerVehicles storage = NoItem
       \/ Storage.fuelTrackerVehicles storage = EmptyString) ->
      forall st', loadFromStorage st storage = Loaded st' -> vehicles st' = vehicles st)
  /\ ((Storage.fuelTrackerRecords storage = NoItem
       \/ Storage.fuelTrackerRecords storage = EmptyString) ->
      forall st', loadFromStorage st storage = Loaded st' ->
                  fuelRecords st' = fuelRecords st)
  /\ ((Storage.fuelTrackerVehicles storage = NoItem
       \/ Storage.fuelTrackerVehicles storage = EmptyString) ->
      (Storage.fuelTrackerRecords storage = NoItem
       \/ Storage.fuelTrackerRecords storage = EmptyString) ->
      loadFromStorage st storage = Loaded st).
Proof.
  destruct storage as [a b]. unfold loadFromStorage, parseItem.
  cbn [Storage.fuelTrackerVehicles Storage.fuelTrackerRecords].
  split; [|split; [|split]].
  - destruct a as [| |[|x]]; [| | |destruct (asArrayOf asVehicle x)];
      (destruct b as [| |[|y]]; [| | |destruct (asArrayOf asFuelRecord y)]);
      (split; [intros E; first [discriminate E|now left|now right]
              |intros [E|E]; first [discriminate E|reflexivity]]).
  - intros [-> | ->]; intros st';
      (destruct b as [| |[|y]]; [| | |destruct (asArrayOf asFuelRecord y)]);
      intros E; first [discriminate E|now injection E as <-].
  - intros [-> | ->]; intros st';
      (destruct a as [| |[|x]]; [| | |destruct (asArrayOf asVehicle x)]);
      intros E; first [discriminate E|now injection E as <-].
  - intros [-> | ->] [-> | ->]; now destruct st.
Qed.

(** ** The empty store *)

(** X19.  [clearAllData] gives the store of a new instance, and a new
    instance over the storage it cleared is empty too.  On that store every
    query returns the empty list or zeros, and every method that takes an
    id throws the not-found error and leaves the store empty. *)
Theorem clearAllData_spec st :
  let st' := clearAllData st in
  st' = constructor
  /\ constructorWith clearedStorage = Loaded st'
  /\ getAllVehicles st' = []
  /\ forall id,
       getVehicle st' id = None
       /\ getVehicleRecords st' id = []
       /\ getAverageConsumption st' id = 0%float
       /\ getConsumptionStats st' id = Stats.mk 0 0 0 0 0 0
       /\ (forall getTime start end_, getRecordsByDateRange getTime st' id start end_ = [])
       /\ (forall genId nowDate nowCreated fuelAmount distance date notes,
             recordFuelConsumption st' genId nowDate nowCreated id fuelAmount distance
               date notes
             = (st', inl (NotFoundError ("Vehicle with ID " ++ id ++ " not found"))))
       /\ (forall updates,
             updateRecord st' id updates
             = (st', inl (NotFoundError ("Record with ID " ++ id ++ " not found"))))
       /\ deleteRecord st' id
          = (st', inl (NotFoundError ("Record with ID " ++ id ++ " not found")))
       /\ deleteVehicle st' id
          = (st', inl (NotFoundError ("Vehicle with ID " ++ id ++ " not found"))).
Proof.
  cbv zeta. repeat split.
Qed.

(** ** Recording and deleting again *)

Lemma splice1_last {A} (p : A -> bool) l x i :
  find p l = None -> findIndex p (l ++ [x]) = Some i -> splice1 i (l ++ [x]) = l.
Proof.
  revert i. induction l as [|a l IH]; intros i Hn Hi; simpl in *.
  - destruct (p x); [|discriminate]. now injection Hi as <-.
  - destruct (p a); [discriminate|].
    destruct (findIndex p (l ++ [x])) as [j|]; [|discriminate].
    injection Hi as <-. simpl. now rewrite (IH j).
Qed.

Lemma add_sub_exact a b :
  exact_add a b = true -> exact_sub (a + b) b = true -> (a + b - b =? a)%float = true.
Proof.
  intros Ha Hs.
  destruct (exact_add_spec _ _ Ha) as (x & y & Ex & Ey & Exy).
  destruct (exact_sub_spec _ _ Hs) as (x' & y' & Ex' & Ey' & Es).
  rewrite (ExactFacts.eqb_exact _ _ _ _ Es Ex).
  apply Z.eqb_eq.
  assert (x' = (x + y)%Z) by congruence. assert (y' = y) by congruence. lia.
Qed.

(** X20.  [deleteRecord] of the record that [recordFuelConsumption] has
    just returned, when no earlier record carries the generated id, gives
    the records back as they were and leaves every other vehicle as it was;
    the totals of the vehicle are the sums less the amounts again, which
    equal the former totals when the two additions and the two
    subtractions round nothing. *)
Theorem recordFuelConsumption_deleteRecord st genId nowDate nowCreated vehicleId
    fuelAmount distance date notes v :
  getVehicle st vehicleId = Some v ->
  find (recordHasId genId) (fuelRecords st) = None ->
  exists st1 record st2,
    recordFuelConsumption st genId nowDate nowCreated vehicleId fuelAmount distance
      date notes = (st1, inr record)
    /\ deleteRecord st1 genId = (st2, inr true)
    /\ fuelRecords st2 = fuelRecords st
    /\ (forall id, id <> vehicleId -> getVehicle st2 id = getVehicle st id)
    /\ getVehicle st2 vehicleId
       = Some (subTotals (addTotals v (parseFloat distance) (parseFloat fuelAmount))
                 (parseFloat distance) (parseFloat fuelAmount))
    /\ (exactRun st
          [RecordFuelConsumption genId nowDate nowCreated vehicleId fuelAmount distance
             date notes;
           DeleteRecord genId] = true ->
        exists v2,
          getVehicle st2 vehicleId = Some v2
          /\ (Vehicle.totalDistance v2 =? Vehicle.totalDistance v)%float = true
          /\ (Vehicle.totalFuelConsumed v2 =? Vehicle.totalFuelConsumed v)%float = true).
Proof.
  intros Hv Hnone.
  assert (forall d f u, Vehicle.id (addTotals u d f) = Vehicle.id u) as Hadd
      by reflexivity.
  assert (forall d f u, Vehicle.id (subTotals u d f) = Vehicle.id u) as Hsub
      by reflexivity.
  unfold exactRun, exactStep, step. unfold recordFuelConsumption at 1 2 3.
  rewrite Hv. cbv zeta. unfold ret. cbn [fst].
  match goal with
  | |- exists st1 record st2, (?s, inr ?r) = _ /\ _ =>
      set (st1 := s); set (record := r)
  end.
  assert (find (recordHasId genId) (fuelRecords st1) = Some record) as Hrec.
  { cbn [st1 fuelRecords]. rewrite find_app_one, Hnone.
    unfold recordHasId at 1. cbn [record FuelRecord.id]. now rewrite String.eqb_refl. }
  destruct (deleteRecord_found st1 genId record Hrec) as (i & Hi & Hn & Hdel).
  assert (getVehicle st1 vehicleId
          = Some (addTotals v (parseFloat distance) (parseFloat fuelAmount))) as Hv1.
  { unfold getVehicle. cbn [st1 vehicles].
    rewrite find_withVehicle by (intros u; apply Hadd).
    rewrite String.eqb_refl. unfold getVehicle in Hv. now rewrite Hv. }
  exists st1, record. eexists. split; [reflexivity|]. split; [exact Hdel|].
  cbn [fuelRecords]. split; [now apply (splice1_last _ _ _ _ Hnone)|].
  assert (find (hasId vehicleId)
            (withVehicle (FuelRecord.vehicleId record)
               (fun u => subTotals u (FuelRecord.distance record)
                                     (FuelRecord.fuelAmount record))
               (vehicles st1))
          = Some (subTotals (addTotals v (parseFloat distance) (parseFloat fuelAmount))
                    (parseFloat distance) (parseFloat fuelAmount))) as Hv2.
  { rewrite find_withVehicle by (intros u; apply Hsub).
    cbn [record FuelRecord.vehicleId]. rewrite String.eqb_refl.
    unfold getVehicle in Hv1. now rewrite Hv1. }
  split; [|split; [exact Hv2|]].
  - intros id Hid. unfold getVehicle. cbn [vehicles].
    rewrite find_withVehicle by (intros u; apply Hsub).
    cbn [record FuelRecord.vehicleId].
    destruct (String.eqb id vehicleId) eqn:E;
      [apply String.eqb_eq in E; contradiction|].
    cbn [st1 vehicles]. rewrite find_withVehicle by (intros u; apply Hadd).
    now rewrite E.
  - rewrite Hrec. cbn [record FuelRecord.vehicleId] in *. rewrite Hv1.
    cbn [addTotals Vehicle.totalDistance Vehicle.totalFuelConsumed
         FuelRecord.distance FuelRecord.fuelAmount].
    intros H. apply andb_true_iff in H as [H1 H2]. apply andb_true_iff in H2 as [H2 _].
    apply andb_true_iff in H1 as [Hd Hf]. apply andb_true_iff in H2 as [Hd' Hf'].
    eexists. split; [exact Hv2|].
    cbn [subTotals addTotals Vehicle.totalDistance Vehicle.totalFuelConsumed].
    split; now apply add_sub_exact.
Qed.

Lemma recordFuelConsumption_deleteRecord_witness :
  let st := fst (addVehicle constructor "2024-01-01T00:00:00.000Z" "v1" "Car A" None) in
  exists st1 record st2,
    recordFuelConsumption st "r1" "2024-01-02T00:00:00.000Z" "2024-01-02T00:00:00.000Z"
      "v1" 10 150 None "" = (st1, inr record)
    /\ deleteRecord st1 "r1" = (st2, inr true)
    /\ fuelRecords st2 = fuelRecords st
    /\ (forall id, id <> "v1" -> getVehicle st2 id = getVehicle st id)
    /\ getVehicle st2 "v1"
       = Some (subTotals
                 (addTotals
                    (Vehicle.mk "v1" "Car A" "petrol" "2024-01-01T00:00:00.000Z" 0 0)
                    (parseFloat 150) (parseFloat 10))
                 (parseFloat 150) (parseFloat 10))
    /\ (exactRun st
          [RecordFuelConsumption "r1" "2024-01-02T00:00:00.000Z"
             "2024-01-02T00:00:00.000Z" "v1" 10 150 None "";
           DeleteRecord "r1"] = true ->
        exists v2,
          getVehicle st2 "v1" = Some v2
          /\ (Vehicle.totalDistance v2 =? 0)%float = true
          /\ (Vehicle.totalFuelConsumed v2 =? 0)%float = true).
Proof.
  intros st.
  exact (recordFuelConsumption_deleteRecord st "r1" "2024-01-02T00:00:00.000Z"
           "2024-01-02T00:00:00.000Z" "v1" 10%float 150%float None ""
           (Vehicle.mk "v1" "Car A" "petrol" "2024-01-01T00:00:00.000Z" 0 0)
           eq_refl eq_refl).
Defined.

(** ** A vehicle with one record *)

Lemma add_zero_positive x : (0 <? x)%float = true -> (0 + x)%float = x.
Proof.
  intros H. apply Prim2SF_inj. rewrite add_spec. rewrite ltb_spec in H.
  change (Prim2SF 0) with (S754_zero false) in *.
  destruct (Prim2SF x) as [s|s| |s m e]; try discriminate H;
    destruct s; try discriminate H; reflexivity.
Qed.

Lemma Math_min_one c : Math_min [c] = c.
Proof.
  destruct (is_nan c) eqn:E.
  - unfold Math_min. cbn [minLoop]. rewrite E. symmetry. now apply NumberFacts.is_nan_spec.
  - destruct (MinMaxFacts.Math_min_spec [c]) as [[H|[]] _];
      [discriminate|now constructor|now symmetry].
Qed.

Lemma Math_max_one c : Math_max [c] = c.
Proof.
  destruct (is_nan c) eqn:E.
  - unfold Math_max. cbn [maxLoop]. rewrite E. symmetry. now apply NumberFacts.is_nan_spec.
  - destruct (MinMaxFacts.Math_max_spec [c]) as [[H|[]] _];
      [discriminate|now constructor|now symmetry].
Qed.

(** X21.  For a vehicle with one record whose distance and fuel amount are
    positive and whose consumption is up to date, [getAverageConsumption]
    is the consumption of that record, and so are the average, the minimum
    and the maximum of [getConsumptionStats]. *)
Theorem getConsumptionStats_one_record st vehicleId r :
  getVehicleRecords st vehicleId = [r] ->
  upToDate r ->
  (0 <? FuelRecord.distance r)%float = true ->
  (0 <? FuelRecord.fuelAmount r)%float = true ->
  getAverageConsumption st vehicleId = FuelRecord.consumption r
  /\ getConsumptionStats st vehicleId
     = {| Stats.count := 1;
          Stats.totalDistance := round2 (FuelRecord.distance r);
          Stats.totalFuel := round2 (FuelRecord.fuelAmount r);
          Stats.averageConsumption := FuelRecord.consumption r;
          Stats.minConsumption := FuelRecord.consumption r;
          Stats.maxConsumption := FuelRecord.consumption r |}.
Proof.
  intros Hr Hup Hd Hf.
  assert (FuelRecord.consumption r
          = round2 (FuelRecord.distance r / FuelRecord.fuelAmount r)) as Hc
      by (apply Hup; now rewrite Hd, Hf).
  unfold getAverageConsumption, getConsumptionStats. rewrite Hr.
  cbn [List.length Nat.eqb map]. unfold reduceSum. cbn [fold_left].
  rewrite (add_zero_positive _ Hd), (add_zero_positive _ Hf), Hf.
  rewrite Math_min_one, Math_max_one, <- Hc. now split.
Qed.

Lemma getConsumptionStats_one_record_witness :
  let st1 := fst (addVehicle constructor "2024-01-01T00:00:00.000Z" "v1" "Car A" None) in
  let st2 := fst (recordFuelConsumption st1 "r1" "2024-01-02T00:00:00.000Z"
                    "2024-01-02T00:00:00.000Z" "v1" 10 150 None "") in
  getAverageConsumption st2 "v1" = 15%float
  /\ getConsumptionStats st2 "v1" = Stats.mk 1 (round2 150) (round2 10) 15 15 15.
Proof.
  intros st1 st2.
  refine (getConsumptionStats_one_record st2 "v1"
            (FuelRecord.mk "r1" "v1" 10 150 15 "2024-01-02T00:00:00.000Z" ""
               "2024-01-02T00:00:00.000Z")
            eq_refl _ eq_refl eq_refl).
  intros _. vm_compute. reflexivity.
Defined.
